(** * The escape interpreter of gocui (vendor/github.com/jesseduffield/gocui/escape.go)

    A shallow embedding of [escapeInterpreter] and of its methods [runes],
    [newEscapeInterpreter], [reset], [instructionRead], [parseOne],
    [outputNormal] and [output256], followed by the properties of the
    specification that concern them.

    Conventions of the embedding:
    - a Go [rune] and a Go [int] are integers of [Z]; [int] arithmetic is
      written with its 64-bit wrap-around;
    - a Go [string] is a [string] of bytes, a slice of strings a [list];
      the nil slice is the empty list;
    - a method that mutates its receiver is a function from the receiver's
      value before the call to an [outcome]: the value it returns together
      with the receiver after the call, or a run-time panic, or a call that
      never returns because it waits for a mutex that is never released;
    - the [sync.Mutex] field is a boolean, [true] while the mutex is held. *)

From Stdlib Require Import ZArith List String Ascii Bool Lia.
Import ListNotations.
Local Open Scope Z_scope.

(** ** Go primitives *)

Definition rune := Z.

(** The rune literals that occur in escape.go. *)
Module Rune.
Definition ESC : rune := 0x1b.
Definition lbracket : rune := 91.   (* '[' *)
Definition zero : rune := 48.       (* '0' *)
Definition nine : rune := 57.       (* '9' *)
Definition semicolon : rune := 59.  (* ';' *)
Definition question : rune := 63.   (* '?' *)
Definition A : rune := 65.
Definition B : rune := 66.
Definition C : rune := 67.
Definition D : rune := 68.
Definition J : rune := 74.
Definition K : rune := 75.
Definition h : rune := 104.
Definition l : rune := 108.
Definition m : rune := 109.
End Rune.

(** Go's [int] on a 64-bit platform: the result of an arithmetic operation
    is reduced into [-2^63, 2^63). *)
Definition int_min : Z := - 2 ^ 63.
Definition int_max : Z := 2 ^ 63 - 1.
Definition wrap_int (x : Z) : Z := (x + 2 ^ 63) mod 2 ^ 64 - 2 ^ 63.
Definition int_add (x y : Z) : Z := wrap_int (x + y).
Definition int_sub (x y : Z) : Z := wrap_int (x - y).

(** [string(ch)] for a rune below 0x80 is the one-byte string holding it.
    escape.go converts only digits and '?'. *)
Definition string_of_rune (ch : rune) : string :=
  String (ascii_of_N (Z.to_N ch)) EmptyString.

(** [[]rune(s)] for a string of bytes below 0x80: one rune per byte.  The
    strings escape.go converts are those of [csiParam], which [parseOne]
    builds from digits and '?' only ([params_ascii_after] below). *)
Fixpoint runes_of_string (s : string) : list rune :=
  match s with
  | EmptyString => []
  | String a rest => Z.of_N (N_of_ascii a) :: runes_of_string rest
  end.

(** *** strconv.Atoi

    The function of Go's standard library, as documented: an optional sign,
    then at least one decimal digit and nothing else; a value outside the
    range of [int] is an error.  [None] stands for a non-nil error. *)
Definition is_digit (a : ascii) : bool :=
  (48 <=? Z.of_N (N_of_ascii a)) && (Z.of_N (N_of_ascii a) <=? 57).

Fixpoint digits_value (s : string) (acc : Z) : option Z :=
  match s with
  | EmptyString => Some acc
  | String a rest =>
      if is_digit a
      then digits_value rest (acc * 10 + (Z.of_N (N_of_ascii a) - 48))
      else None
  end.

Definition unsigned_value (s : string) : option Z :=
  match s with
  | EmptyString => None
  | String _ _ => digits_value s 0
  end.

Definition in_int_range (v : Z) : option Z :=
  if (int_min <=? v) && (v <=? int_max) then Some v else None.

Definition Atoi (s : string) : option Z :=
  match s with
  | EmptyString => None
  | String a rest =>
      if Ascii.eqb a "-"%char then
        match unsigned_value rest with
        | Some n => in_int_range (- n)
        | None => None
        end
      else if Ascii.eqb a "+"%char then
        match unsigned_value rest with
        | Some n => in_int_range n
        | None => None
        end
      else
        match unsigned_value s with
        | Some n => in_int_range n
        | None => None
        end
  end.

(** ** Declarations of package gocui that escape.go uses *)

(** Modelled from the spec: the [Attribute] type and its modifier constants
    are declared outside escape.go.  The spec fixes that an attribute packs
    a colour slot and the modifier flags into one unsigned value, the flags
    on bits above the slot; the width of the type and the three flag values
    are parameters of the development. *)
Class AttributeDecl : Type := {
  attr_bits : Z;
  AttrBold : Z;
  AttrUnderline : Z;
  AttrReverse : Z
}.

(** Modelled from the spec: slot 0 of an attribute is the terminal's default
    colour ([ColorDefault] is declared outside escape.go). *)
Definition ColorDefault : Z := 0.

(** The conversion [Attribute(x)] of an [int] to the unsigned type. *)
Definition to_Attribute `{AttributeDecl} (x : Z) : Z := x mod 2 ^ attr_bits.

(** An attribute carries the modifier [flag] when all bits of [flag] are
    set in it. *)
Definition has_flag (flag a : Z) : Prop := Z.land a flag = flag.

(** Modelled from the spec: an instance of the declarations with a 16-bit
    attribute, a colour slot of 9 bits and the three flags on the bits 9, 10
    and 11 above it. *)
Definition attr16 : AttributeDecl :=
  {| attr_bits := 16; AttrBold := 512; AttrUnderline := 1024; AttrReverse := 2048 |}.

(** Modelled from the spec: the output mode is Basic ([OutputNormal]) or
    Extended ([Output256]); the type is declared outside escape.go. *)
Inductive OutputMode : Type := OutputNormal | Output256.

(** ** The data of escape.go *)

(** The instruction kinds: [1 << iota]. *)
Definition NONE : Z := Z.shiftl 1 0.
Definition CURSOR_UP : Z := Z.shiftl 1 1.
Definition CURSOR_DOWN : Z := Z.shiftl 1 2.
Definition CURSOR_LEFT : Z := Z.shiftl 1 3.
Definition CURSOR_RIGHT : Z := Z.shiftl 1 4.
Definition CURSOR_MOVE : Z := Z.shiftl 1 5.
Definition CLEAR_SCREEN : Z := Z.shiftl 1 6.
Definition ERASE_TO_END_OF_LINE : Z := Z.shiftl 1 7.
Definition SAVE_CURSOR_POS : Z := Z.shiftl 1 8.
Definition RESTORE_CURSOR_POS : Z := Z.shiftl 1 9.

Record instruction : Type := {
  kind : Z;
  param1 : Z;
  param2 : Z
}.

Inductive escapeState : Type := stateNone | stateEscape | stateCSI | stateParams.

Inductive error : Type := errNotCSI | errCSIParseError | errCSITooLong.

Record escapeInterpreter : Type := {
  state : escapeState;
  curch : rune;
  csiParam : list string;
  curFgColor : Z;
  curBgColor : Z;
  mode : OutputMode;
  mutex : bool;
  instr : instruction
}.

(** [directionMap]: the keys and values in the order of the source; a key
    that is absent reads as the zero value. *)
Definition directionMap : list (rune * Z) :=
  [ (Rune.A, CURSOR_UP); (Rune.B, CURSOR_DOWN);
    (Rune.C, CURSOR_LEFT); (Rune.D, CURSOR_RIGHT) ].

Fixpoint map_index (m : list (rune * Z)) (k : rune) : Z :=
  match m with
  | [] => 0
  | (k', v) :: rest => if k =? k' then v else map_index rest k
  end.

(** Field assignments. *)
Definition with_state (s : escapeState) (ei : escapeInterpreter) :=
  {| state := s; curch := curch ei; csiParam := csiParam ei;
     curFgColor := curFgColor ei; curBgColor := curBgColor ei;
     mode := mode ei; mutex := mutex ei; instr := instr ei |}.
Definition with_curch (c : rune) (ei : escapeInterpreter) :=
  {| state := state ei; curch := c; csiParam := csiParam ei;
     curFgColor := curFgColor ei; curBgColor := curBgColor ei;
     mode := mode ei; mutex := mutex ei; instr := instr ei |}.
Definition with_csiParam (p : list string) (ei : escapeInterpreter) :=
  {| state := state ei; curch := curch ei; csiParam := p;
     curFgColor := curFgColor ei; curBgColor := curBgColor ei;
     mode := mode ei; mutex := mutex ei; instr := instr ei |}.
Definition with_fg (a : Z) (ei : escapeInterpreter) :=
  {| state := state ei; curch := curch ei; csiParam := csiParam ei;
     curFgColor := a; curBgColor := curBgColor ei;
     mode := mode ei; mutex := mutex ei; instr := instr ei |}.
Definition with_bg (a : Z) (ei : escapeInterpreter) :=
  {| state := state ei; curch := curch ei; csiParam := csiParam ei;
     curFgColor := curFgColor ei; curBgColor := a;
     mode := mode ei; mutex := mutex ei; instr := instr ei |}.
Definition with_mutex (b : bool) (ei : escapeInterpreter) :=
  {| state := state ei; curch := curch ei; csiParam := csiParam ei;
     curFgColor := curFgColor ei; curBgColor := curBgColor ei;
     mode := mode ei; mutex := b; instr := instr ei |}.
Definition with_kind (k : Z) (ei : escapeInterpreter) :=
  {| state := state ei; curch := curch ei; csiParam := csiParam ei;
     curFgColor := curFgColor ei; curBgColor := curBgColor ei;
     mode := mode ei; mutex := mutex ei;
     instr := {| kind := k; param1 := param1 (instr ei); param2 := param2 (instr ei) |} |}.
Definition with_param1 (p : Z) (ei : escapeInterpreter) :=
  {| state := state ei; curch := curch ei; csiParam := csiParam ei;
     curFgColor := curFgColor ei; curBgColor := curBgColor ei;
     mode := mode ei; mutex := mutex ei;
     instr := {| kind := kind (instr ei); param1 := p; param2 := param2 (instr ei) |} |}.

(** ** Outcomes of a call *)

Inductive outcome (A : Type) : Type :=
| Returned (a : A) (ei : escapeInterpreter)
    (* the call returns [a] and leaves the receiver as [ei] *)
| Panicked (ei : escapeInterpreter)
    (* a run-time panic (index out of range) *)
| Blocked (ei : escapeInterpreter).
    (* [Lock] on a mutex that is held and that nothing will release *)
Arguments Returned {A} a ei.
Arguments Panicked {A} ei.
Arguments Blocked {A} ei.

(** [ei.mutex.Lock(); defer ei.mutex.Unlock()] around a body: the call blocks
    when the mutex is already held; otherwise the body runs with the mutex
    held, and the deferred [Unlock] runs when the body returns or panics. *)
Definition locked {A : Type} (body : escapeInterpreter -> outcome A)
    (ei : escapeInterpreter) : outcome A :=
  if mutex ei then Blocked ei
  else
    match body (with_mutex true ei) with
    | Returned a ei' => Returned a (with_mutex false ei')
    | Panicked ei' => Panicked (with_mutex false ei')
    | Blocked ei' => Blocked ei'
    end.

(** [s[i]] on a slice: a panic when [i] is out of range. *)
Definition index {A B : Type} (l : list A) (i : nat) (ei : escapeInterpreter)
    (k : A -> outcome B) : outcome B :=
  match nth_error l i with
  | Some x => k x
  | None => Panicked ei
  end.

(** ** The methods *)

Definition runes : escapeInterpreter -> outcome (list rune) :=
  locked (fun ei =>
    match state ei with
    | stateNone => Returned [Rune.ESC] ei
    | stateEscape => Returned [Rune.ESC; curch ei] ei
    | stateCSI => Returned [Rune.ESC; Rune.lbracket; curch ei] ei
    | stateParams =>
        let ret := fold_left (fun ret s => ret ++ runes_of_string s)
                             (csiParam ei) [Rune.ESC; Rune.lbracket] in
        Returned (ret ++ [curch ei]) ei
    end).

Definition newEscapeInterpreter (md : OutputMode) : escapeInterpreter :=
  {| state := stateNone; curch := 0; csiParam := [];
     curFgColor := ColorDefault; curBgColor := ColorDefault;
     mode := md; mutex := false;
     instr := {| kind := NONE; param1 := 0; param2 := 0 |} |}.

Definition reset : escapeInterpreter -> outcome unit :=
  locked (fun ei =>
    Returned tt
      (with_csiParam []
        (with_bg ColorDefault (with_fg ColorDefault (with_state stateNone ei))))).

Definition instructionRead (ei : escapeInterpreter) : escapeInterpreter :=
  with_kind NONE ei.

Section Resolvers.
Context `{AttributeDecl}.

(** The [switch] in the loop body of [outputNormal]. *)
Definition outputNormal_case (p : Z) (ei : escapeInterpreter) : escapeInterpreter :=
  if (30 <=? p) && (p <=? 37) then
    with_fg (to_Attribute (int_add (int_sub p 30) 1)) ei
  else if p =? 39 then with_fg ColorDefault ei
  else if (40 <=? p) && (p <=? 47) then
    with_bg (to_Attribute (int_add (int_sub p 40) 1)) ei
  else if p =? 49 then with_bg ColorDefault ei
  else if p =? 1 then with_fg (Z.lor (curFgColor ei) AttrBold) ei
  else if p =? 4 then with_fg (Z.lor (curFgColor ei) AttrUnderline) ei
  else if p =? 7 then with_fg (Z.lor (curFgColor ei) AttrReverse) ei
  else if p =? 0 then with_bg ColorDefault (with_fg ColorDefault ei)
  else ei.

(** [for _, param := range ...] of [outputNormal]. *)
Fixpoint outputNormal_loop (params : list string) (ei : escapeInterpreter)
    : option error * escapeInterpreter :=
  match params with
  | [] => (None, ei)
  | param :: rest =>
      match Atoi param with
      | None => (Some errCSIParseError, ei)
      | Some p => outputNormal_loop rest (outputNormal_case p ei)
      end
  end.

Definition outputNormal (ei : escapeInterpreter) : option error * escapeInterpreter :=
  outputNormal_loop (csiParam ei) ei.

(** The [switch] in the loop over [csiParam[3:]] of [output256]. *)
Definition output256_case (p : Z) (ei : escapeInterpreter) : escapeInterpreter :=
  if p =? 1 then with_fg (Z.lor (curFgColor ei) AttrBold) ei
  else if p =? 4 then with_fg (Z.lor (curFgColor ei) AttrUnderline) ei
  else if p =? 7 then with_fg (Z.lor (curFgColor ei) AttrReverse) ei
  else ei.

Fixpoint output256_loop (params : list string) (ei : escapeInterpreter)
    : option error * escapeInterpreter :=
  match params with
  | [] => (None, ei)
  | param :: rest =>
      match Atoi param with
      | None => (Some errCSIParseError, ei)
      | Some p => output256_loop rest (output256_case p ei)
      end
  end.

Definition returned {A : Type} (r : A * escapeInterpreter) : outcome A :=
  Returned (fst r) (snd r).

(** The body of [output256] after it has taken the mutex. *)
Definition output256_body (ei : escapeInterpreter) : outcome (option error) :=
  if (List.length (csiParam ei) <? 3)%nat then returned (outputNormal ei)
  else
    index (csiParam ei) 1 ei (fun s1 =>
    match Atoi s1 with
    | None => Returned (Some errCSIParseError) ei
    | Some md =>
        if negb (md =? 5) then returned (outputNormal ei)
        else
          index (csiParam ei) 0 ei (fun s0 =>
          match Atoi s0 with
          | None => Returned (Some errCSIParseError) ei
          | Some fgbg =>
              index (csiParam ei) 2 ei (fun s2 =>
              match Atoi s2 with
              | None => Returned (Some errCSIParseError) ei
              | Some color =>
                  if fgbg =? 38 then
                    returned
                      (output256_loop (skipn 3 (csiParam ei))
                         (with_fg (to_Attribute (int_add color 1)) ei))
                  else if fgbg =? 48 then
                    Returned None (with_bg (to_Attribute (int_add color 1)) ei)
                  else Returned (Some errCSIParseError) ei
              end)
          end)
    end).

Definition output256 : escapeInterpreter -> outcome (option error) :=
  locked output256_body.

Definition is_digit_rune (ch : rune) : bool :=
  (Rune.zero <=? ch) && (ch <=? Rune.nine).

(** [ei.csiParam[len(ei.csiParam)-1] += string(ch)] *)
Definition append_to_last (ch : rune) (ei : escapeInterpreter)
    : outcome (bool * option error) :=
  match csiParam ei with
  | [] => Panicked ei
  | _ :: _ =>
      Returned (true, None)
        (with_csiParam
           (removelast (csiParam ei)
              ++ [(last (csiParam ei) EmptyString ++ string_of_rune ch)%string]) ei)
  end.

(** Leaving a sequence: [ei.state = stateNone; ei.csiParam = nil]. *)
Definition finish (ei : escapeInterpreter) : escapeInterpreter :=
  with_csiParam [] (with_state stateNone ei).

(** [case stateParams:] of [parseOne], entered from the state or by
    [fallthrough] from [case stateCSI:]. *)
Definition parseOne_params (ch : rune) (ei : escapeInterpreter)
    : outcome (bool * option error) :=
  if is_digit_rune ch || (ch =? Rune.question) then append_to_last ch ei
  else if ch =? Rune.semicolon then
    Returned (true, None) (with_csiParam (csiParam ei ++ [EmptyString]) ei)
  else if ch =? Rune.m then
    match
      match mode ei with
      | OutputNormal => returned (outputNormal ei)
      | Output256 => output256 ei
      end
    with
    | Returned (Some _) ei' => Returned (false, Some errCSIParseError) ei'
    | Returned None ei' => Returned (true, None) (finish ei')
    | Panicked ei' => Panicked ei'
    | Blocked ei' => Blocked ei'
    end
  else if (ch =? Rune.A) || (ch =? Rune.B) || (ch =? Rune.C) || (ch =? Rune.D) then
    index (csiParam ei) 0 ei (fun s0 =>
    match Atoi s0 with
    | None => Returned (false, Some errCSIParseError) ei
    | Some p =>
        Returned (true, None)
          (finish (with_param1 p (with_kind (map_index directionMap ch) ei)))
    end)
  else if ch =? Rune.J then
    Returned (true, None) (finish (with_kind CLEAR_SCREEN ei))
  else if ch =? Rune.h then
    index (csiParam ei) 0 ei (fun s0 =>
    if String.eqb s0 "?25" then Returned (true, None) (finish ei)
    else Returned (false, Some errCSIParseError) ei)
  else if ch =? Rune.l then
    index (csiParam ei) 0 ei (fun s0 =>
    if String.eqb s0 "?25" then Returned (true, None) (finish ei)
    else Returned (false, Some errCSIParseError) ei)
  else Returned (false, Some errCSIParseError) ei.

(** The [switch ei.state] of [parseOne], after [ei.curch = ch]. *)
Definition parseOne_switch (ch : rune) (ei : escapeInterpreter)
    : outcome (bool * option error) :=
  match state ei with
  | stateNone =>
      if ch =? Rune.ESC then Returned (true, None) (with_state stateEscape ei)
      else Returned (false, None) ei
  | stateEscape =>
      if ch =? Rune.lbracket then Returned (true, None) (with_state stateCSI ei)
      else Returned (false, Some errNotCSI) ei
  | stateCSI =>
      if is_digit_rune ch then
        parseOne_params ch
          (with_state stateParams (with_csiParam (csiParam ei ++ [EmptyString]) ei))
      else if ch =? Rune.m then
        parseOne_params ch
          (with_state stateParams (with_csiParam (csiParam ei ++ ["0"%string]) ei))
      else if ch =? Rune.K then
        Returned (true, None) (finish (with_kind ERASE_TO_END_OF_LINE ei))
      else if ch =? Rune.question then
        parseOne_params ch
          (with_state stateParams (with_csiParam (csiParam ei ++ [EmptyString]) ei))
      else Returned (false, Some errCSIParseError) ei
  | stateParams => parseOne_params ch ei
  end.

(** The body of [parseOne] after it has taken the mutex: the two sanity
    checks, then the assignment of [curch] and the [switch]. *)
Definition parseOne_body (ch : rune) (ei : escapeInterpreter)
    : outcome (bool * option error) :=
  if (20 <? List.length (csiParam ei))%nat then
    Returned (false, Some errCSITooLong) ei
  else if (0 <? List.length (csiParam ei))%nat
          && (255 <? String.length (last (csiParam ei) EmptyString))%nat
  then Returned (false, Some errCSITooLong) ei
  else parseOne_switch ch (with_curch ch ei).

Definition parseOne (ch : rune) : escapeInterpreter -> outcome (bool * option error) :=
  locked (parseOne_body ch).

(** ** Histories of calls *)

(** A caller's loop over a run of characters: each is given to [parseOne]
    in order, whatever the previous call returned; the results are
    collected.  The loop stops at a call that panics or blocks. *)
Fixpoint feed (chs : list rune) (ei : escapeInterpreter)
    : outcome (list (bool * option error)) :=
  match chs with
  | [] => Returned [] ei
  | ch :: rest =>
      match parseOne ch ei with
      | Returned r ei' =>
          match feed rest ei' with
          | Returned rs ei'' => Returned (r :: rs) ei''
          | Panicked ei'' => Panicked ei''
          | Blocked ei'' => Blocked ei''
          end
      | Panicked ei' => Panicked ei'
      | Blocked ei' => Blocked ei'
      end
  end.

(** The calls a client of the interpreter can make. *)
Inductive call : Type :=
| CallParseOne (ch : rune)
| CallReset
| CallInstructionRead
| CallRunes.

(** The receiver after one call that returns; [None] for a call that
    panics or blocks. *)
Definition after_call (c : call) (ei : escapeInterpreter) : option escapeInterpreter :=
  match c with
  | CallParseOne ch =>
      match parseOne ch ei with Returned _ ei' => Some ei' | _ => None end
  | CallReset =>
      match reset ei with Returned _ ei' => Some ei' | _ => None end
  | CallInstructionRead => Some (instructionRead ei)
  | CallRunes =>
      match runes ei with Returned _ ei' => Some ei' | _ => None end
  end.

(** The receiver after a history of calls, all of which return. *)
Fixpoint after_calls (cs : list call) (ei : escapeInterpreter) : option escapeInterpreter :=
  match cs with
  | [] => Some ei
  | c :: rest =>
      match after_call c ei with
      | Some ei' => after_calls rest ei'
      | None => None
      end
  end.

(** ** Vocabulary of the properties *)

(** Both sanity checks of [parseOne] pass: at most 20 parameters, the last
    of at most 255 bytes. *)
Definition within_limits (ei : escapeInterpreter) : Prop :=
  (List.length (csiParam ei) <= 20)%nat
  /\ (String.length (last (csiParam ei) EmptyString) <= 255)%nat.

(** Every byte of the string is below 0x80. *)
Fixpoint all_ascii (s : string) : bool :=
  match s with
  | EmptyString => true
  | String a rest => (Z.of_N (N_of_ascii a) <? 128) && all_ascii rest
  end.

(** What holds of the data between two calls, whatever the history. *)
Record well_formed (ei : escapeInterpreter) : Prop := {
  wf_mutex : mutex ei = false;
  wf_count : (List.length (csiParam ei) <= 21)%nat;
  wf_sizes : Forall (fun s => (String.length s <= 256)%nat) (csiParam ei);
  wf_ascii : Forall (fun s => all_ascii s = true) (csiParam ei);
  wf_params : state ei = stateParams -> csiParam ei <> [];
  wf_idle : state ei <> stateParams -> csiParam ei = []
}.

(** The two interpreters agree on every field but the two colours. *)
Definition same_but_colours (ei ei' : escapeInterpreter) : Prop :=
  ei' = with_bg (curBgColor ei') (with_fg (curFgColor ei') ei).

(** *** The Basic strategy in the words of the spec

    The spec packs an attribute as a colour slot and modifier flags.  A
    colour code sets the slot; the codes 1, 4 and 7 set a modifier; only
    the code 0 clears the modifiers.  A parameter is numeric when it writes
    an integer, of any size. *)

(** The integer a numeric parameter string writes: an optional sign and at
    least one decimal digit. *)
Definition integer_value (s : string) : option Z :=
  match s with
  | EmptyString => None
  | String a rest =>
      if Ascii.eqb a "-"%char then
        match unsigned_value rest with
        | Some n => Some (- n)
        | None => None
        end
      else if Ascii.eqb a "+"%char then unsigned_value rest
      else unsigned_value s
  end.

(** The bits of the three modifiers, and the assignment of a colour slot
    that leaves them as they are. *)
Definition modifier_mask : Z := Z.lor AttrBold (Z.lor AttrUnderline AttrReverse).

Definition set_slot (slot a : Z) : Z := Z.lor slot (Z.land a modifier_mask).

(** One numeric code, on the pair (foreground, background). *)
Definition spec_basic_code (code : Z) (c : Z * Z) : Z * Z :=
  let (fg, bg) := c in
  if (30 <=? code) && (code <=? 37) then (set_slot (code - 30 + 1) fg, bg)
  else if code =? 39 then (set_slot ColorDefault fg, bg)
  else if (40 <=? code) && (code <=? 47) then (fg, set_slot (code - 40 + 1) bg)
  else if code =? 49 then (fg, set_slot ColorDefault bg)
  else if code =? 1 then (Z.lor fg AttrBold, bg)
  else if code =? 4 then (Z.lor fg AttrUnderline, bg)
  else if code =? 7 then (Z.lor fg AttrReverse, bg)
  else if code =? 0 then (ColorDefault, ColorDefault)
  else (fg, bg).

(** The parameters in order; the first that is not numeric ends the run
    with the parse error. *)
Fixpoint spec_basic (params : list string) (c : Z * Z) : option error * (Z * Z) :=
  match params with
  | [] => (None, c)
  | p :: rest =>
      match integer_value p with
      | None => (Some errCSIParseError, c)
      | Some code => spec_basic rest (spec_basic_code code c)
      end
  end.

(** *** The rules [outputNormal] follows

    They differ from the words of the spec in two places: a colour code
    assigns the whole attribute, modifiers included, and a parameter counts
    when [Atoi] accepts it, which leaves out the integers outside the range
    of [int]. *)

(** The effect of one accepted code on the foreground and the background. *)
Inductive colour_rule (code fg bg : Z) : Z -> Z -> Prop :=
| rule_foreground : 30 <= code <= 37 -> colour_rule code fg bg (code - 30 + 1) bg
| rule_foreground_default : code = 39 -> colour_rule code fg bg ColorDefault bg
| rule_background : 40 <= code <= 47 -> colour_rule code fg bg fg (code - 40 + 1)
| rule_background_default : code = 49 -> colour_rule code fg bg fg ColorDefault
| rule_bold : code = 1 -> colour_rule code fg bg (Z.lor fg AttrBold) bg
| rule_underline : code = 4 -> colour_rule code fg bg (Z.lor fg AttrUnderline) bg
| rule_reverse : code = 7 -> colour_rule code fg bg (Z.lor fg AttrReverse) bg
| rule_reset : code = 0 -> colour_rule code fg bg ColorDefault ColorDefault
| rule_ignored :
    ~ 30 <= code <= 37 -> ~ 40 <= code <= 47 ->
    ~ In code [39; 49; 1; 4; 7; 0] ->
    colour_rule code fg bg fg bg.

(** The parameters in order, each accepted by [Atoi] and handled by
    [colour_rule]; the first that [Atoi] rejects ends the run with the
    parse error. *)
Inductive colour_run : list string -> Z * Z -> option error -> Z * Z -> Prop :=
| run_done c : colour_run [] c None c
| run_rejected p rest c :
    Atoi p = None -> colour_run (p :: rest) c (Some errCSIParseError) c
| run_code p rest n fg bg fg' bg' e c :
    Atoi p = Some n -> colour_rule n fg bg fg' bg' ->
    colour_run rest (fg', bg') e c ->
    colour_run (p :: rest) (fg, bg) e c.

(** The interpreter of a fresh stream in the middle of a sequence, with the
    given parameters read so far. *)
Definition reading (md : OutputMode) (params : list string) : escapeInterpreter :=
  with_csiParam params (with_state stateParams (newEscapeInterpreter md)).

(** The modifiers of the Extended strategy in the words of the spec: a
    trailing parameter 1, 4 or 7 adds Bold, Underline or Reverse. *)
Definition trailing_modifier (fg code : Z) : Z :=
  if code =? 1 then Z.lor fg AttrBold
  else if code =? 4 then Z.lor fg AttrUnderline
  else if code =? 7 then Z.lor fg AttrReverse
  else fg.

(** ** Vocabulary of the properties of whole sequences *)

(** The characters the [stateParams] case adds to the current parameter. *)
Definition is_param_rune (ch : rune) : bool :=
  is_digit_rune ch || (ch =? Rune.question).

(** The string a run of such characters builds: [string(ch)] of each, in
    order. *)
Fixpoint string_of_runes (chs : list rune) : string :=
  match chs with
  | [] => EmptyString
  | ch :: rest => (string_of_rune ch ++ string_of_runes rest)%string
  end.

(** The number a run of decimal digits writes. *)
Definition decimal_value (ds : list rune) : Z :=
  fold_left (fun acc d => acc * 10 + (d - Rune.zero)) ds 0.

(** A character that no case of [parseOne] handles after ESC [. *)
Definition unsupported (ch : rune) : Prop :=
  is_digit_rune ch = false
  /\ ~ In ch [Rune.question; Rune.semicolon; Rune.m; Rune.A; Rune.B; Rune.C;
              Rune.D; Rune.J; Rune.K; Rune.h; Rune.l].

(** The pairs (state before, state after) of the assignments to [ei.state]
    in [parseOne], with the pairs of a call that leaves the state alone. *)
Definition transitions : list (escapeState * escapeState) :=
  [ (stateNone, stateNone); (stateNone, stateEscape);
    (stateEscape, stateEscape); (stateEscape, stateCSI);
    (stateCSI, stateCSI); (stateCSI, stateParams); (stateCSI, stateNone);
    (stateParams, stateParams); (stateParams, stateNone) ].

End Resolvers.

(** * Properties *)

Section Properties.
Context `{AttributeDecl}.

(** ** The mutex *)

Lemma locked_held {A : Type} (body : escapeInterpreter -> outcome A) ei :
  mutex ei = true -> locked body ei = Blocked ei.
Proof. unfold locked; intros ->; reflexivity. Qed.

Lemma locked_free {A : Type} (body : escapeInterpreter -> outcome A) ei :
  mutex ei = false ->
  locked body ei =
  match body (with_mutex true ei) with
  | Returned a ei' => Returned a (with_mutex false ei')
  | Panicked ei' => Panicked (with_mutex false ei')
  | Blocked ei' => Blocked ei'
  end.
Proof. unfold locked; intros ->; reflexivity. Qed.

(** ** What the resolvers leave alone *)

Lemma same_but_colours_refl ei : same_but_colours ei ei.
Proof. destruct ei; reflexivity. Qed.

Lemma same_but_colours_trans a b c :
  same_but_colours a b -> same_but_colours b c -> same_but_colours a c.
Proof.
  unfold same_but_colours; intros Hab Hbc.
  rewrite Hbc at 1. rewrite Hab. destruct a; reflexivity.
Qed.

Lemma outputNormal_case_frame p ei : same_but_colours ei (outputNormal_case p ei).
Proof.
  unfold outputNormal_case.
  repeat match goal with
         | |- context [if ?b then _ else _] => destruct b
         end; destruct ei; reflexivity.
Qed.

Lemma output256_case_frame p ei : same_but_colours ei (output256_case p ei).
Proof.
  unfold output256_case.
  repeat match goal with
         | |- context [if ?b then _ else _] => destruct b
         end; destruct ei; reflexivity.
Qed.

Lemma outputNormal_loop_frame params : forall ei,
  same_but_colours ei (snd (outputNormal_loop params ei)).
Proof.
  induction params as [|p rest IH]; intros ei; simpl.
  - apply same_but_colours_refl.
  - destruct (Atoi p) as [n|]; simpl.
    + eapply same_but_colours_trans; [apply outputNormal_case_frame | apply IH].
    + apply same_but_colours_refl.
Qed.

Lemma output256_loop_frame params : forall ei,
  same_but_colours ei (snd (output256_loop params ei)).
Proof.
  induction params as [|p rest IH]; intros ei; simpl.
  - apply same_but_colours_refl.
  - destruct (Atoi p) as [n|]; simpl.
    + eapply same_but_colours_trans; [apply output256_case_frame | apply IH].
    + apply same_but_colours_refl.
Qed.

Lemma same_but_colours_fields ei ei' :
  same_but_colours ei ei' ->
  state ei' = state ei /\ curch ei' = curch ei /\ csiParam ei' = csiParam ei
  /\ mode ei' = mode ei /\ mutex ei' = mutex ei /\ instr ei' = instr ei.
Proof. unfold same_but_colours; intros ->; simpl; repeat split. Qed.

(** The resolvers do not look at the mutex, the state or the current rune. *)
Lemma outputNormal_case_with_mutex b p ei :
  outputNormal_case p (with_mutex b ei) = with_mutex b (outputNormal_case p ei).
Proof.
  unfold outputNormal_case.
  repeat match goal with
         | |- context [if ?c then _ else _] => destruct c
         end; reflexivity.
Qed.

Lemma outputNormal_loop_with_mutex b params : forall ei,
  outputNormal_loop params (with_mutex b ei) =
  (fst (outputNormal_loop params ei), with_mutex b (snd (outputNormal_loop params ei))).
Proof.
  induction params as [|p rest IH]; intros ei; simpl; [reflexivity|].
  destruct (Atoi p) as [n|]; simpl; [|reflexivity].
  rewrite outputNormal_case_with_mutex. apply IH.
Qed.

Lemma output256_case_with_mutex b p ei :
  output256_case p (with_mutex b ei) = with_mutex b (output256_case p ei).
Proof.
  unfold output256_case.
  repeat match goal with
         | |- context [if ?c then _ else _] => destruct c
         end; reflexivity.
Qed.

Lemma output256_loop_with_mutex b params : forall ei,
  output256_loop params (with_mutex b ei) =
  (fst (output256_loop params ei), with_mutex b (snd (output256_loop params ei))).
Proof.
  induction params as [|p rest IH]; intros ei; simpl; [reflexivity|].
  destruct (Atoi p) as [n|]; simpl; [|reflexivity].
  rewrite output256_case_with_mutex. apply IH.
Qed.

(** ** The sanity checks *)

Lemma parseOne_body_within_limits ch ei :
  within_limits ei -> parseOne_body ch ei = parseOne_switch ch (with_curch ch ei).
Proof.
  intros [Hn Hl]. unfold parseOne_body.
  replace (20 <? List.length (csiParam ei))%nat with false
    by (symmetry; apply Nat.ltb_ge; exact Hn).
  replace (255 <? String.length (last (csiParam ei) EmptyString))%nat with false
    by (symmetry; apply Nat.ltb_ge; exact Hl).
  rewrite andb_false_r. reflexivity.
Qed.

Lemma parseOne_body_too_long ch ei :
  ~ within_limits ei -> parseOne_body ch ei = Returned (false, Some errCSITooLong) ei.
Proof.
  intros Hno. unfold parseOne_body.
  destruct (20 <? List.length (csiParam ei))%nat eqn:En; [reflexivity|].
  destruct (255 <? String.length (last (csiParam ei) EmptyString))%nat eqn:El.
  - destruct (csiParam ei) as [|p ps] eqn:Ep; [discriminate El|reflexivity].
  - exfalso. apply Hno. split; [apply Nat.ltb_ge, En | apply Nat.ltb_ge, El].
Qed.

Lemma within_limits_dec ei : {within_limits ei} + {~ within_limits ei}.
Proof.
  unfold within_limits.
  destruct (le_dec (List.length (csiParam ei)) 20);
    destruct (le_dec (String.length (last (csiParam ei) EmptyString)) 255);
    try (left; split; assumption); right; intros [? ?]; contradiction.
Qed.

(** ** Reset and the instruction latch *)

Lemma direction_kind (ch : rune) :
  (ch =? Rune.A) || (ch =? Rune.B) || (ch =? Rune.C) || (ch =? Rune.D) = true ->
  In (map_index directionMap ch) [CURSOR_UP; CURSOR_DOWN; CURSOR_LEFT; CURSOR_RIGHT].
Proof.
  intros Hch. unfold directionMap, map_index.
  destruct (ch =? Rune.A); [simpl; auto|].
  destruct (ch =? Rune.B); [simpl; auto|].
  destruct (ch =? Rune.C); [simpl; auto|].
  destruct (ch =? Rune.D); [simpl; auto|discriminate Hch].
Qed.

(** C8: whatever the interpreter holds, [reset] returns, and leaves the
    state [stateNone], both colours [ColorDefault] and no parameter; a
    second [reset] changes nothing more. *)
Theorem reset_idle_idempotent (ei : escapeInterpreter) :
  mutex ei = false ->
  exists ei',
    reset ei = Returned tt ei'
    /\ state ei' = stateNone
    /\ curFgColor ei' = ColorDefault
    /\ curBgColor ei' = ColorDefault
    /\ csiParam ei' = []
    /\ reset ei' = Returned tt ei'.
Proof.
  intros Hm. unfold reset. rewrite (locked_free _ _ Hm).
  eexists. split; [reflexivity|]. simpl. repeat split.
Qed.

(** ** Shape of one call of [parseOne] *)

Lemma string_length_append (a b : string) :
  String.length (a ++ b) = (String.length a + String.length b)%nat.
Proof. induction a as [|c a IH]; simpl; [reflexivity | now rewrite IH]. Qed.

Lemma all_ascii_append (a b : string) :
  all_ascii (a ++ b) = all_ascii a && all_ascii b.
Proof.
  induction a as [|c a IH]; simpl; [reflexivity|].
  rewrite IH. apply andb_assoc.
Qed.

Lemma param_rune_ascii (ch : rune) :
  is_digit_rune ch || (ch =? Rune.question) = true ->
  all_ascii (string_of_rune ch) = true
  /\ runes_of_string (string_of_rune ch) = [ch].
Proof.
  unfold is_digit_rune, Rune.zero, Rune.nine, Rune.question. intros Hch.
  assert (Hr : 0 <= ch < 128).
  { apply orb_true_iff in Hch as [Hd|Hq].
    - apply andb_true_iff in Hd as [H1 H2].
      apply Z.leb_le in H1. apply Z.leb_le in H2. lia.
    - apply Z.eqb_eq in Hq. lia. }
  unfold string_of_rune; simpl.
  rewrite N_ascii_embedding by lia.
  rewrite Z2N.id by lia. split; [|reflexivity].
  rewrite andb_true_r. apply Z.ltb_lt. lia.
Qed.

(** What a returning call of the [stateParams] case does. *)
Lemma parseOne_params_returns ch ei r ei' :
  mutex ei = true ->
  parseOne_params ch ei = Returned r ei' ->
  (r = (true, None) /\ csiParam ei <> []
   /\ is_digit_rune ch || (ch =? Rune.question) = true
   /\ ei' = with_csiParam
              (removelast (csiParam ei)
                 ++ [(last (csiParam ei) EmptyString ++ string_of_rune ch)%string]) ei)
  \/ (r = (true, None) /\ ch = Rune.semicolon
      /\ ei' = with_csiParam (csiParam ei ++ [EmptyString]) ei)
  \/ (r = (false, Some errCSIParseError) /\ same_but_colours ei ei')
  \/ (r = (true, None)
      /\ state ei' = stateNone /\ csiParam ei' = []
      /\ mutex ei' = mutex ei /\ mode ei' = mode ei /\ curch ei' = curch ei
      /\ (instr ei' = instr ei
          \/ In (kind (instr ei'))
               [CURSOR_UP; CURSOR_DOWN; CURSOR_LEFT; CURSOR_RIGHT; CLEAR_SCREEN])).
Proof.
  intros Hm. unfold parseOne_params.
  destruct (is_digit_rune ch || (ch =? Rune.question)) eqn:Edig.
  { unfold append_to_last. destruct (csiParam ei) as [|p ps] eqn:Ep; [discriminate|].
    intros [= <- <-]. left. repeat split. discriminate. }
  destruct (ch =? Rune.semicolon) eqn:Esemi.
  { intros [= <- <-]. right; left. apply Z.eqb_eq in Esemi. repeat split. exact Esemi. }
  destruct (ch =? Rune.m) eqn:Em.
  { destruct (mode ei) eqn:Emode.
    - unfold returned, outputNormal.
      pose proof (outputNormal_loop_frame (csiParam ei) ei) as Hf.
      destruct (outputNormal_loop (csiParam ei) ei) as [e ei1]; simpl in *.
      destruct (same_but_colours_fields _ _ Hf) as (Hs & Hc & Hp & Hmd & Hmu & Hi).
      destruct e as [e|]; intros [= <- <-].
      + right; right; left. split; [reflexivity | exact Hf].
      + right; right; right. simpl. repeat split; auto; congruence.
    - unfold output256. rewrite (locked_held _ _ Hm). discriminate. }
  destruct ((ch =? Rune.A) || (ch =? Rune.B) || (ch =? Rune.C) || (ch =? Rune.D)) eqn:Edir.
  { unfold index. destruct (nth_error (csiParam ei) 0) as [s0|]; [|discriminate].
    destruct (Atoi s0) as [n|]; intros [= <- <-].
    - right; right; right. simpl. repeat split. right.
      pose proof (direction_kind ch Edir) as Hk. simpl in Hk |- *. tauto.
    - right; right; left. split; [reflexivity | apply same_but_colours_refl]. }
  destruct (ch =? Rune.J) eqn:EJ.
  { intros [= <- <-]. right; right; right. simpl. repeat split. right. tauto. }
  destruct (ch =? Rune.h) eqn:Eh.
  { unfold index. destruct (nth_error (csiParam ei) 0) as [s0|]; [|discriminate].
    destruct (String.eqb s0 "?25"); intros [= <- <-].
    - right; right; right. simpl. repeat split. left; reflexivity.
    - right; right; left. split; [reflexivity | apply same_but_colours_refl]. }
  destruct (ch =? Rune.l) eqn:El.
  { unfold index. destruct (nth_error (csiParam ei) 0) as [s0|]; [|discriminate].
    destruct (String.eqb s0 "?25"); intros [= <- <-].
    - right; right; right. simpl. repeat split. left; reflexivity.
    - right; right; left. split; [reflexivity | apply same_but_colours_refl]. }
  intros [= <- <-]. right; right; left. split; [reflexivity | apply same_but_colours_refl].
Qed.

(** ** The data between two calls *)

Lemma parseOne_params_well_formed ch ei r ei' :
  mutex ei = true -> state ei = stateParams -> csiParam ei <> [] ->
  within_limits ei ->
  Forall (fun s => (String.length s <= 256)%nat) (csiParam ei) ->
  Forall (fun s => all_ascii s = true) (csiParam ei) ->
  parseOne_params ch ei = Returned r ei' ->
  well_formed (with_mutex false ei').
Proof.
  intros Hm Hst Hne [Hn Hl] Hsz Hasc Hret.
  destruct (parseOne_params_returns _ _ _ _ Hm Hret)
    as [(_ & _ & Hdig & ->) | [(_ & _ & ->) | [(_ & Hf) | (_ & Hs' & Hp' & _)]]].
  - destruct (exists_last Hne) as (front & lst & Heq).
    rewrite Heq in *. rewrite removelast_last, last_last in *.
    apply Forall_app in Hsz as [Hsz _]. apply Forall_app in Hasc as [Hasc Hlst].
    apply Forall_inv in Hlst.
    destruct (param_rune_ascii ch Hdig) as [Hc _].
    rewrite length_app in Hn; simpl in Hn.
    constructor; simpl.
    + reflexivity.
    + rewrite length_app; simpl. lia.
    + apply Forall_app; split; [exact Hsz|]. constructor; [|constructor].
      rewrite string_length_append. simpl. lia.
    + apply Forall_app; split; [exact Hasc|]. constructor; [|constructor].
      rewrite all_ascii_append, Hlst, Hc. reflexivity.
    + intros _ Habs. apply app_eq_nil in Habs as [_ Habs]. discriminate.
    + intros Habs. contradiction.
  - constructor; simpl.
    + reflexivity.
    + rewrite length_app; simpl. lia.
    + apply Forall_app; split; [exact Hsz|]. constructor; [simpl; lia|constructor].
    + apply Forall_app; split; [exact Hasc|]. constructor; [reflexivity|constructor].
    + intros _ Habs. apply app_eq_nil in Habs as [_ Habs]. discriminate.
    + intros Habs. contradiction.
  - destruct (same_but_colours_fields _ _ Hf) as (Hs & _ & Hp & _).
    constructor; simpl; rewrite ?Hp, ?Hs; auto; try lia.
    intros Habs. contradiction.
  - constructor; simpl; rewrite ?Hp', ?Hs'; auto; try discriminate.
    simpl. lia.
Qed.

Lemma parseOne_switch_well_formed ch ei r ei' :
  mutex ei = true -> well_formed (with_mutex false ei) -> within_limits ei ->
  parseOne_switch ch ei = Returned r ei' ->
  well_formed (with_mutex false ei').
Proof.
  intros Hm [_ Hc Hsz Hasc Hp Hi] Hlim. simpl in *.
  unfold parseOne_switch. destruct (state ei) eqn:Est.
  - assert (Hnil : csiParam ei = []) by (apply Hi; discriminate).
    destruct (ch =? Rune.ESC); intros [= <- <-];
      constructor; simpl; rewrite ?Hnil, ?Est; auto; try discriminate; simpl; lia.
  - assert (Hnil : csiParam ei = []) by (apply Hi; discriminate).
    destruct (ch =? Rune.lbracket); intros [= <- <-];
      constructor; simpl; rewrite ?Hnil, ?Est; auto; try discriminate; simpl; lia.
  - assert (Hnil : csiParam ei = []) by (apply Hi; discriminate).
    assert (Hopen : forall x, (String.length x <= 1)%nat -> all_ascii x = true ->
              parseOne_params ch
                (with_state stateParams (with_csiParam (csiParam ei ++ [x]) ei))
              = Returned r ei' -> well_formed (with_mutex false ei')).
    { intros x Hx Hax. rewrite Hnil.
      apply parseOne_params_well_formed; simpl; auto.
      - discriminate.
      - split; simpl; lia.
      - constructor; [lia|constructor]. }
    destruct (is_digit_rune ch); [apply Hopen; simpl; auto|].
    destruct (ch =? Rune.m); [apply Hopen; simpl; auto|].
    destruct (ch =? Rune.K).
    { intros [= <- <-]. constructor; simpl; auto; try discriminate; lia. }
    destruct (ch =? Rune.question); [apply Hopen; simpl; auto|].
    intros [= <- <-]. constructor; simpl; rewrite ?Hnil, ?Est; auto; try discriminate.
    simpl; lia.
  - apply parseOne_params_well_formed; auto.
Qed.

Lemma parseOne_well_formed ch ei r ei' :
  well_formed ei -> parseOne ch ei = Returned r ei' -> well_formed ei'.
Proof.
  intros Hwf. pose proof (wf_mutex _ Hwf) as Hm.
  unfold parseOne. rewrite (locked_free _ _ Hm).
  destruct (within_limits_dec (with_mutex true ei)) as [Hlim|Hlim].
  - rewrite (parseOne_body_within_limits _ _ Hlim).
    destruct (parseOne_switch ch (with_curch ch (with_mutex true ei)))
      as [r1 ei1| |] eqn:Esw; try discriminate.
    intros [= <- <-].
    apply (parseOne_switch_well_formed ch (with_curch ch (with_mutex true ei)) r1 ei1);
      auto.
    destruct Hwf; constructor; simpl; auto.
  - rewrite (parseOne_body_too_long _ _ Hlim). intros [= <- <-].
    destruct Hwf; constructor; simpl; auto.
Qed.

Lemma newEscapeInterpreter_well_formed md : well_formed (newEscapeInterpreter md).
Proof. constructor; simpl; auto; try discriminate; lia. Qed.

Lemma after_call_well_formed c ei ei' :
  well_formed ei -> after_call c ei = Some ei' -> well_formed ei'.
Proof.
  intros Hwf. pose proof (wf_mutex _ Hwf) as Hm. destruct c as [ch| | |]; simpl.
  - destruct (parseOne ch ei) as [r ei1| |] eqn:Ep; try discriminate.
    intros [= <-]. eapply parseOne_well_formed; eauto.
  - unfold reset. rewrite (locked_free _ _ Hm). simpl. intros [= <-].
    constructor; simpl; auto; try discriminate; lia.
  - intros [= <-]. destruct Hwf; constructor; simpl; auto.
  - unfold runes. rewrite (locked_free _ _ Hm). simpl.
    destruct (state ei) eqn:Est; simpl; intros [= <-];
      destruct Hwf; constructor; simpl; auto.
Qed.

Lemma after_calls_well_formed cs : forall ei ei',
  well_formed ei -> after_calls cs ei = Some ei' -> well_formed ei'.
Proof.
  induction cs as [|c cs IH]; simpl; intros ei ei' Hwf.
  - intros [= <-]. exact Hwf.
  - destruct (after_call c ei) as [ei1|] eqn:Ec; [|discriminate].
    apply IH. eapply after_call_well_formed; eauto.
Qed.

(** ** Which calls return *)

Lemma with_mutex_false_true ei :
  mutex ei = false -> with_mutex false (with_mutex true ei) = ei.
Proof. destruct ei; simpl; intros ->; reflexivity. Qed.

(** In the [stateParams] case with a parameter to look at, the only call
    that does not return is the terminator 'm' in mode [Output256]:
    [output256] asks for the mutex that [parseOne] holds. *)
Lemma parseOne_params_outcome ch ei :
  mutex ei = true -> csiParam ei <> [] ->
  (mode ei = Output256 -> ch = Rune.m -> parseOne_params ch ei = Blocked ei)
  /\ (~ (mode ei = Output256 /\ ch = Rune.m) ->
      exists r ei', parseOne_params ch ei = Returned r ei').
Proof.
  intros Hm Hne. split.
  - intros Hmd ->. unfold parseOne_params. simpl. rewrite Hmd.
    unfold output256. rewrite (locked_held _ _ Hm). reflexivity.
  - intros Hno. unfold parseOne_params, append_to_last, index.
    destruct (csiParam ei) as [|p0 ps] eqn:Ep; [contradiction|]. simpl.
    destruct (is_digit_rune ch || (ch =? Rune.question)); [eauto|].
    destruct (ch =? Rune.semicolon); [eauto|].
    destruct (ch =? Rune.m) eqn:Em.
    { apply Z.eqb_eq in Em. destruct (mode ei) eqn:Emode.
      - unfold returned. destruct (fst (outputNormal ei)); eauto.
      - exfalso. apply Hno. split; [reflexivity | exact Em]. }
    destruct ((ch =? Rune.A) || (ch =? Rune.B) || (ch =? Rune.C) || (ch =? Rune.D)).
    { destruct (Atoi p0); eauto. }
    destruct (ch =? Rune.J); [eauto|].
    destruct (ch =? Rune.h); [destruct (String.eqb p0 "?25"); eauto|].
    destruct (ch =? Rune.l); [destruct (String.eqb p0 "?25"); eauto|].
    eauto.
Qed.

(** Between two calls, a call of [parseOne] blocks exactly when it resolves
    an 'm' terminator in mode [Output256]; every other call returns, and
    none panics. *)
Lemma parseOne_outcome ch ei :
  well_formed ei ->
  let resolves_256 :=
    mode ei = Output256 /\ ch = Rune.m /\ within_limits ei
    /\ (state ei = stateCSI \/ state ei = stateParams) in
  (resolves_256 -> exists ei', parseOne ch ei = Blocked ei')
  /\ (~ resolves_256 -> exists r ei', parseOne ch ei = Returned r ei').
Proof.
  intros Hwf. pose proof (wf_mutex _ Hwf) as Hm. simpl.
  unfold parseOne. rewrite (locked_free _ _ Hm).
  destruct (within_limits_dec (with_mutex true ei)) as [Hlim|Hlim].
  2:{ rewrite (parseOne_body_too_long _ _ Hlim). split; [|eauto].
      intros (_ & _ & Hl & _). contradiction. }
  rewrite (parseOne_body_within_limits _ _ Hlim).
  unfold parseOne_switch. simpl state.
  destruct (state ei) eqn:Est.
  - split; [intros (_ & _ & _ & [?|?]); discriminate|].
    destruct (ch =? Rune.ESC); eauto.
  - split; [intros (_ & _ & _ & [?|?]); discriminate|].
    destruct (ch =? Rune.lbracket); eauto.
  - change (csiParam (with_curch ch (with_mutex true ei))) with (csiParam ei).
    assert (Hopen : forall x,
      let ei2 := with_state stateParams
                   (with_csiParam (csiParam ei ++ [x])
                      (with_curch ch (with_mutex true ei))) in
      (mode ei = Output256 -> ch = Rune.m -> parseOne_params ch ei2 = Blocked ei2)
      /\ (~ (mode ei = Output256 /\ ch = Rune.m) ->
          exists r ei', parseOne_params ch ei2 = Returned r ei')).
    { intros x ei2. apply (parseOne_params_outcome ch ei2); [reflexivity|].
      simpl. intros Habs. apply app_eq_nil in Habs as [_ Habs]. discriminate. }
    split.
    + intros (Hmd & -> & _). simpl.
      destruct (Hopen "0"%string) as [Hb _]. rewrite (Hb Hmd eq_refl). eauto.
    + intros Hno.
      assert (Hno' : ~ (mode ei = Output256 /\ ch = Rune.m)).
      { intros [? ?]. apply Hno. split; [assumption|]. split; [assumption|].
        split; [exact Hlim | left; reflexivity]. }
      destruct (is_digit_rune ch).
      { destruct (Hopen EmptyString) as [_ Hr].
        destruct (Hr Hno') as (r & ei' & ->). eauto. }
      destruct (ch =? Rune.m).
      { destruct (Hopen "0"%string) as [_ Hr].
        destruct (Hr Hno') as (r & ei' & ->). eauto. }
      destruct (ch =? Rune.K); [eauto|].
      destruct (ch =? Rune.question); [|eauto].
      destruct (Hopen EmptyString) as [_ Hr].
      destruct (Hr Hno') as (r & ei' & ->). eauto.
  - assert (Hne : csiParam (with_curch ch (with_mutex true ei)) <> [])
      by (apply (wf_params _ Hwf), Est).
    destruct (parseOne_params_outcome ch (with_curch ch (with_mutex true ei)) eq_refl Hne)
      as [Hb Hr].
    split.
    + intros (Hmd & Hch & _). rewrite (Hb Hmd Hch). eauto.
    + intros Hno.
      destruct Hr as (r & ei' & ->); [|eauto].
      intros [? ?]. apply Hno. split; [assumption|]. split; [assumption|].
      split; [exact Hlim | right; reflexivity].
Qed.

(** ** Bounds on the stored parameters *)

(** C3 (amended): after any history of calls, the interpreter holds at most
    21 parameters, each of at most 256 bytes; and once it holds more than
    20 parameters, or a last parameter of more than 255 bytes, every
    character fed is answered by [errCSITooLong] and stores nothing. *)
Theorem csiParam_bounds (md : OutputMode) (cs : list call) (ei : escapeInterpreter) :
  after_calls cs (newEscapeInterpreter md) = Some ei ->
  (List.length (csiParam ei) <= 21)%nat
  /\ Forall (fun s => (String.length s <= 256)%nat) (csiParam ei)
  /\ (forall ch,
        (20 < List.length (csiParam ei))%nat
        \/ (255 < String.length (last (csiParam ei) EmptyString))%nat ->
        parseOne ch ei = Returned (false, Some errCSITooLong) ei).
Proof.
  intros Hafter.
  pose proof (after_calls_well_formed _ _ _ (newEscapeInterpreter_well_formed md) Hafter)
    as Hwf.
  split; [apply (wf_count _ Hwf)|]. split; [apply (wf_sizes _ Hwf)|].
  intros ch Hover. pose proof (wf_mutex _ Hwf) as Hm.
  unfold parseOne. rewrite (locked_free _ _ Hm).
  rewrite parseOne_body_too_long.
  - rewrite (with_mutex_false_true _ Hm). reflexivity.
  - intros [Hn Hl]. simpl in Hn, Hl. lia.
Qed.

(** ** The instruction latch *)

Lemma parseOne_params_instr ch ei r ei' :
  mutex ei = true -> parseOne_params ch ei = Returned r ei' ->
  instr ei' = instr ei
  \/ In (kind (instr ei'))
       [CURSOR_UP; CURSOR_DOWN; CURSOR_LEFT; CURSOR_RIGHT; CLEAR_SCREEN].
Proof.
  intros Hm Hret.
  destruct (parseOne_params_returns _ _ _ _ Hm Hret)
    as [(_ & _ & _ & ->) | [(_ & _ & ->) | [(_ & Hf) | (_ & _ & _ & _ & _ & _ & Hk)]]].
  - left; reflexivity.
  - left; reflexivity.
  - left. apply (same_but_colours_fields _ _ Hf).
  - exact Hk.
Qed.

Lemma parseOne_instr ch ei r ei' :
  parseOne ch ei = Returned r ei' ->
  instr ei' = instr ei
  \/ In (kind (instr ei'))
       [CURSOR_UP; CURSOR_DOWN; CURSOR_LEFT; CURSOR_RIGHT; CLEAR_SCREEN;
        ERASE_TO_END_OF_LINE].
Proof.
  unfold parseOne. destruct (mutex ei) eqn:Hm.
  { rewrite (locked_held _ _ Hm). discriminate. }
  rewrite (locked_free _ _ Hm).
  destruct (parseOne_body ch (with_mutex true ei)) as [r1 ei1| |] eqn:Eb;
    try discriminate.
  intros [= <- <-]. simpl instr.
  assert (Hweak : forall e,
            mutex e = true -> instr e = instr ei ->
            parseOne_params ch e = Returned r1 ei1 ->
            instr ei1 = instr ei
            \/ In (kind (instr ei1))
                 [CURSOR_UP; CURSOR_DOWN; CURSOR_LEFT; CURSOR_RIGHT; CLEAR_SCREEN;
                  ERASE_TO_END_OF_LINE]).
  { intros e He Hie Hret.
    destruct (parseOne_params_instr _ _ _ _ He Hret) as [Hi|Hk].
    - left; congruence.
    - right. simpl in Hk |- *. tauto. }
  revert Eb. unfold parseOne_body.
  destruct (20 <? _)%nat; [intros [= <- <-]; left; reflexivity|].
  destruct (_ && _); [intros [= <- <-]; left; reflexivity|].
  unfold parseOne_switch. simpl state. destruct (state ei).
  - destruct (ch =? Rune.ESC); intros [= <- <-]; left; reflexivity.
  - destruct (ch =? Rune.lbracket); intros [= <- <-]; left; reflexivity.
  - destruct (is_digit_rune ch); [apply Hweak; reflexivity|].
    destruct (ch =? Rune.m); [apply Hweak; reflexivity|].
    destruct (ch =? Rune.K).
    { intros [= <- <-]. right. simpl. tauto. }
    destruct (ch =? Rune.question); [apply Hweak; reflexivity|].
    intros [= <- <-]; left; reflexivity.
  - apply Hweak; reflexivity.
Qed.

Lemma latched_kinds_not_NONE k :
  In k [CURSOR_UP; CURSOR_DOWN; CURSOR_LEFT; CURSOR_RIGHT; CLEAR_SCREEN;
        ERASE_TO_END_OF_LINE] ->
  k <> NONE.
Proof.
  simpl. intros [<-|[<-|[<-|[<-|[<-|[<-|[]]]]]]]; discriminate.
Qed.

(** C10: [reset] returns with the instruction as it was; of the calls a
    client can make, only [instructionRead] takes a latched instruction
    back to [NONE], and [instructionRead] assigns nothing but the kind. *)
Theorem reset_keeps_instruction (ei : escapeInterpreter) :
  mutex ei = false ->
  (exists ei', reset ei = Returned tt ei' /\ instr ei' = instr ei)
  /\ (forall c ei',
        c <> CallInstructionRead -> after_call c ei = Some ei' ->
        kind (instr ei) <> NONE -> kind (instr ei') <> NONE)
  /\ instructionRead ei =
       {| state := state ei; curch := curch ei; csiParam := csiParam ei;
          curFgColor := curFgColor ei; curBgColor := curBgColor ei;
          mode := mode ei; mutex := mutex ei;
          instr := {| kind := NONE; param1 := param1 (instr ei);
                      param2 := param2 (instr ei) |} |}.
Proof.
  intros Hm. split; [|split].
  - unfold reset. rewrite (locked_free _ _ Hm). eexists. split; reflexivity.
  - intros c ei' Hc Hafter Hk. destruct c as [ch| | |]; simpl in Hafter.
    + destruct (parseOne ch ei) as [r ei1| |] eqn:Ep; try discriminate.
      injection Hafter as <-.
      destruct (parseOne_instr _ _ _ _ Ep) as [-> | Hin]; [exact Hk|].
      apply latched_kinds_not_NONE, Hin.
    + unfold reset in Hafter. rewrite (locked_free _ _ Hm) in Hafter.
      simpl in Hafter. injection Hafter as <-. exact Hk.
    + contradiction.
    + unfold runes in Hafter. rewrite (locked_free _ _ Hm) in Hafter.
      simpl in Hafter.
      destruct (state ei); simpl in Hafter; injection Hafter as <-; exact Hk.
  - reflexivity.
Qed.

(** ** Terminators of the [stateParams] case *)

Lemma parseOne_in_params ch ei :
  mutex ei = false -> state ei = stateParams -> within_limits ei ->
  parseOne ch ei =
  match parseOne_params ch (with_curch ch (with_mutex true ei)) with
  | Returned a ei' => Returned a (with_mutex false ei')
  | Panicked ei' => Panicked (with_mutex false ei')
  | Blocked ei' => Blocked ei'
  end.
Proof.
  intros Hm Hst Hlim. unfold parseOne. rewrite (locked_free _ _ Hm).
  rewrite parseOne_body_within_limits by exact Hlim.
  unfold parseOne_switch. simpl state. rewrite Hst. reflexivity.
Qed.

(** C7: in [stateParams], the terminators 'A', 'B', 'C', 'D' read the first
    parameter with [Atoi]; when it is an integer [n] they latch
    [CURSOR_UP], [CURSOR_DOWN], [CURSOR_LEFT], [CURSOR_RIGHT] in this order
    with [n], and leave the sequence; otherwise they report
    [errCSIParseError].  Feeding ESC [ 2 A latches [CURSOR_UP] with 2. *)
Theorem parseOne_cursor_direction
    (ei : escapeInterpreter) (ch k : Z) (p0 : string) (rest : list string)
    (md : OutputMode) :
  state ei = stateParams -> mutex ei = false -> within_limits ei ->
  csiParam ei = p0 :: rest ->
  In (ch, k) [(Rune.A, CURSOR_UP); (Rune.B, CURSOR_DOWN);
              (Rune.C, CURSOR_LEFT); (Rune.D, CURSOR_RIGHT)] ->
  parseOne ch ei =
    match Atoi p0 with
    | Some n =>
        Returned (true, None)
          {| state := stateNone; curch := ch; csiParam := [];
             curFgColor := curFgColor ei; curBgColor := curBgColor ei;
             mode := mode ei; mutex := false;
             instr := {| kind := k; param1 := n; param2 := param2 (instr ei) |} |}
    | None => Returned (false, Some errCSIParseError) (with_curch ch ei)
    end
  /\ feed [Rune.ESC; Rune.lbracket; 50; Rune.A] (newEscapeInterpreter md) =
       Returned [(true, None); (true, None); (true, None); (true, None)]
         {| state := stateNone; curch := Rune.A; csiParam := [];
            curFgColor := ColorDefault; curBgColor := ColorDefault;
            mode := md; mutex := false;
            instr := {| kind := CURSOR_UP; param1 := 2; param2 := 0 |} |}.
Proof.
  intros Hst Hm Hlim Hps Hch. split; [|reflexivity].
  rewrite (parseOne_in_params _ _ Hm Hst Hlim).
  simpl in Hch.
  destruct Hch as [[= <- <-]|[[= <- <-]|[[= <- <-]|[[= <- <-]|[]]]]];
    unfold parseOne_params, index; simpl; rewrite Hps; simpl;
    destruct (Atoi p0); destruct ei; simpl in *; subst; reflexivity.
Qed.

(** C4 (amended): in [stateParams], the terminators 'h' and 'l' look at the
    first parameter only.  When it is the string ?25, whatever parameters
    follow it, the call returns [true] and no error, leaves the sequence
    and touches neither the colours nor the instruction; when it is any
    other string the call reports [errCSIParseError]. *)
Theorem parseOne_h_l_first_parameter
    (ei : escapeInterpreter) (ch : Z) (p0 : string) (rest : list string) :
  state ei = stateParams -> mutex ei = false -> within_limits ei ->
  csiParam ei = p0 :: rest ->
  ch = Rune.h \/ ch = Rune.l ->
  (p0 = "?25"%string ->
   parseOne ch ei =
     Returned (true, None)
       {| state := stateNone; curch := ch; csiParam := [];
          curFgColor := curFgColor ei; curBgColor := curBgColor ei;
          mode := mode ei; mutex := false; instr := instr ei |})
  /\ (p0 <> "?25"%string ->
      parseOne ch ei = Returned (false, Some errCSIParseError) (with_curch ch ei)).
Proof.
  intros Hst Hm Hlim Hps Hch.
  rewrite (parseOne_in_params _ _ Hm Hst Hlim).
  split; intros Hp0.
  - destruct Hch as [-> | ->];
      unfold parseOne_params, index; simpl; rewrite Hps; simpl;
      rewrite (proj2 (String.eqb_eq _ _) Hp0);
      destruct ei; simpl in *; subst; reflexivity.
  - destruct Hch as [-> | ->];
      unfold parseOne_params, index; simpl; rewrite Hps; simpl;
      rewrite (proj2 (String.eqb_neq _ _) Hp0);
      destruct ei; simpl in *; subst; reflexivity.
Qed.

(** ** The Basic resolver *)

Lemma wrap_int_small (x : Z) : int_min <= x <= int_max -> wrap_int x = x.
Proof.
  unfold wrap_int, int_min, int_max. intros Hx.
  rewrite Z.mod_small; lia.
Qed.

Lemma to_Attribute_small (x : Z) :
  9 <= attr_bits -> 0 <= x < 512 -> to_Attribute x = x.
Proof.
  intros Hb Hx. unfold to_Attribute. apply Z.mod_small.
  assert (2 ^ 9 <= 2 ^ attr_bits) by (apply Z.pow_le_mono_r; lia).
  change (2 ^ 9) with 512 in *. lia.
Qed.

Lemma slot_of_code (p base : Z) :
  9 <= attr_bits -> 0 <= base <= 100 -> base <= p <= base + 7 ->
  to_Attribute (int_add (int_sub p base) 1) = p - base + 1.
Proof.
  intros Hb Hbase Hp. unfold int_add, int_sub.
  rewrite (wrap_int_small (p - base)) by (unfold int_min, int_max; lia).
  rewrite wrap_int_small by (unfold int_min, int_max; lia).
  apply to_Attribute_small; [exact Hb | lia].
Qed.

Lemma outputNormal_case_rule p ei :
  9 <= attr_bits ->
  colour_rule p (curFgColor ei) (curBgColor ei)
    (curFgColor (outputNormal_case p ei)) (curBgColor (outputNormal_case p ei)).
Proof.
  intros Hb. unfold outputNormal_case.
  destruct ((30 <=? p) && (p <=? 37)) eqn:E1.
  { apply andb_true_iff in E1 as [Ha Hc]. apply Z.leb_le in Ha, Hc. simpl.
    rewrite (slot_of_code p 30) by lia. apply rule_foreground. lia. }
  destruct (p =? 39) eqn:E2.
  { apply Z.eqb_eq in E2. simpl. apply rule_foreground_default, E2. }
  destruct ((40 <=? p) && (p <=? 47)) eqn:E3.
  { apply andb_true_iff in E3 as [Ha Hc]. apply Z.leb_le in Ha, Hc. simpl.
    rewrite (slot_of_code p 40) by lia. apply rule_background. lia. }
  destruct (p =? 49) eqn:E4.
  { apply Z.eqb_eq in E4. simpl. apply rule_background_default, E4. }
  destruct (p =? 1) eqn:E5.
  { apply Z.eqb_eq in E5. simpl. apply rule_bold, E5. }
  destruct (p =? 4) eqn:E6.
  { apply Z.eqb_eq in E6. simpl. apply rule_underline, E6. }
  destruct (p =? 7) eqn:E7.
  { apply Z.eqb_eq in E7. simpl. apply rule_reverse, E7. }
  destruct (p =? 0) eqn:E8.
  { apply Z.eqb_eq in E8. simpl. apply rule_reset, E8. }
  apply Z.eqb_neq in E2, E4, E5, E6, E7, E8.
  apply rule_ignored.
  - intros [Ha Hc]. apply Z.leb_le in Ha, Hc. rewrite Ha, Hc in E1. discriminate.
  - intros [Ha Hc]. apply Z.leb_le in Ha, Hc. rewrite Ha, Hc in E3. discriminate.
  - simpl. intros [?|[?|[?|[?|[?|[?|[]]]]]]]; congruence.
Qed.

Lemma outputNormal_loop_run params : forall ei,
  9 <= attr_bits ->
  colour_run params (curFgColor ei, curBgColor ei)
    (fst (outputNormal_loop params ei))
    (curFgColor (snd (outputNormal_loop params ei)),
     curBgColor (snd (outputNormal_loop params ei))).
Proof.
  induction params as [|p rest IH]; intros ei Hb; simpl.
  - apply run_done.
  - destruct (Atoi p) as [n|] eqn:Ep; simpl.
    + eapply run_code; [exact Ep | apply outputNormal_case_rule, Hb | apply IH, Hb].
    + apply run_rejected, Ep.
Qed.

(** The rules of the spec leave no choice: the run is a function of the
    parameters and of the colours before it. *)
Lemma colour_rule_functional code fg bg fg1 bg1 fg2 bg2 :
  colour_rule code fg bg fg1 bg1 -> colour_rule code fg bg fg2 bg2 ->
  fg1 = fg2 /\ bg1 = bg2.
Proof.
  intros H1 H2.
  destruct H1; destruct H2; subst; simpl in *;
    try (split; reflexivity); try lia; exfalso; intuition lia.
Qed.

Lemma colour_run_functional params : forall c e1 c1 e2 c2,
  colour_run params c e1 c1 -> colour_run params c e2 c2 -> e1 = e2 /\ c1 = c2.
Proof.
  induction params as [|p rest IH]; intros c e1 c1 e2 c2 H1 H2.
  - inversion H1; inversion H2; subst. split; congruence.
  - inversion H1; subst; inversion H2; subst; try congruence.
    + split; reflexivity.
    + assert (n0 = n) by congruence. subst n0.
      match goal with
      | Ha : colour_rule n _ _ _ _, Hb : colour_rule n _ _ _ _ |- _ =>
          destruct (colour_rule_functional _ _ _ _ _ _ _ Ha Hb) as [-> ->]
      end.
      eapply IH; eassumption.
Qed.

(** [Atoi] is the integer the string writes, when it is in the range of
    [int]. *)
Lemma Atoi_integer_value (s : string) :
  Atoi s =
  match integer_value s with
  | Some v => in_int_range v
  | None => None
  end.
Proof.
  destruct s as [|a rest]; [reflexivity|]. unfold Atoi, integer_value.
  destruct (Ascii.eqb a "-"); [destruct (unsigned_value rest); reflexivity|].
  destruct (Ascii.eqb a "+"); [destruct (unsigned_value rest); reflexivity|].
  destruct (unsigned_value (String a rest)); reflexivity.
Qed.

(** C6 (amended): [outputNormal] goes through the parameters in order.  A
    parameter counts when it writes an integer in the range of [int]
    (that is when [Atoi] accepts it): 30-37 assign code - 30 + 1 to the
    whole foreground and 39 the default, 40-47 assign code - 40 + 1 to the
    whole background and 49 the default, so that modifiers set before are
    dropped; 1, 4, 7 add Bold, Underline, Reverse to the foreground; 0
    resets both; any other value is ignored.  The first parameter that
    writes no integer, or an integer outside the range of [int], ends the
    call with [errCSIParseError].  Nothing but the two colours is
    assigned. *)
Theorem outputNormal_colour_rules (ei : escapeInterpreter) :
  9 <= attr_bits ->
  colour_run (csiParam ei) (curFgColor ei, curBgColor ei)
    (fst (outputNormal ei))
    (curFgColor (snd (outputNormal ei)), curBgColor (snd (outputNormal ei)))
  /\ same_but_colours ei (snd (outputNormal ei))
  /\ (forall s v, integer_value s = Some v ->
        (int_min <= v <= int_max -> Atoi s = Some v)
        /\ (~ int_min <= v <= int_max -> Atoi s = None))
  /\ (forall s, integer_value s = None -> Atoi s = None).
Proof.
  intros Hb. split; [|split; [|split]].
  - apply outputNormal_loop_run, Hb.
  - apply outputNormal_loop_frame.
  - intros s v Hv. rewrite Atoi_integer_value, Hv. unfold in_int_range.
    split; intros Hr.
    + replace ((int_min <=? v) && (v <=? int_max)) with true; [reflexivity|].
      symmetry. apply andb_true_iff. split; apply Z.leb_le; lia.
    + destruct ((int_min <=? v) && (v <=? int_max)) eqn:E; [|reflexivity].
      exfalso. apply Hr. apply andb_true_iff in E as [E1 E2].
      apply Z.leb_le in E1, E2. lia.
  - intros s Hs. rewrite Atoi_integer_value, Hs. reflexivity.
Qed.

(** After [fg |= flag] the attribute carries the flag; the default colour
    carries none. *)
Lemma lor_has_flag (a flag : Z) : has_flag flag (Z.lor a flag).
Proof.
  unfold has_flag. apply Z.bits_inj'. intros n _.
  rewrite Z.land_spec, Z.lor_spec.
  destruct (Z.testbit a n), (Z.testbit flag n); reflexivity.
Qed.

Lemma ColorDefault_no_flag (flag : Z) : Z.land ColorDefault flag = 0.
Proof. reflexivity. Qed.

(** ** An error in the middle of a Basic resolution *)

Lemma parseOne_params_m_OutputNormal ei :
  mode ei = OutputNormal ->
  parseOne_params Rune.m ei =
  match fst (outputNormal ei) with
  | Some _ => Returned (false, Some errCSIParseError) (snd (outputNormal ei))
  | None => Returned (true, None) (finish (snd (outputNormal ei)))
  end.
Proof.
  intros Hmd. unfold parseOne_params.
  change (is_digit_rune Rune.m || (Rune.m =? Rune.question)) with false.
  change (Rune.m =? Rune.semicolon) with false.
  change (Rune.m =? Rune.m) with true.
  cbv iota. rewrite Hmd. unfold returned.
  destruct (fst (outputNormal ei)); reflexivity.
Qed.

Lemma outputNormal_loop_numeric_prefix pre : forall rest ei,
  Forall (fun s => Atoi s <> None) pre ->
  exists ei1,
    same_but_colours ei ei1
    /\ outputNormal_loop (pre ++ rest) ei = outputNormal_loop rest ei1.
Proof.
  induction pre as [|p pre IH]; intros rest ei Hnum; simpl.
  - exists ei. split; [apply same_but_colours_refl | reflexivity].
  - inversion Hnum as [|? ? Hp Hpre]; subst.
    destruct (Atoi p) as [n|]; [|contradiction].
    destruct (IH rest (outputNormal_case n ei) Hpre) as (ei1 & Hf & Heq).
    exists ei1. split; [|exact Heq].
    eapply same_but_colours_trans; [apply outputNormal_case_frame | exact Hf].
Qed.

(** C9: in mode [OutputNormal], an 'm' terminator whose parameters hold a
    colour code (30-37 or 40-47) right before a parameter that [Atoi]
    rejects, all parameters before them being numeric, is answered by
    [errCSIParseError]; the state stays [stateParams] and the parameters
    stay as they were, but the colour the code stands for is assigned. *)
Theorem outputNormal_error_not_atomic
    (ei : escapeInterpreter) (pre : list string) (c : string) (n : Z)
    (bad : string) (post : list string) :
  9 <= attr_bits ->
  mutex ei = false -> state ei = stateParams -> mode ei = OutputNormal ->
  within_limits ei ->
  csiParam ei = pre ++ c :: bad :: post ->
  Forall (fun s => Atoi s <> None) pre ->
  Atoi c = Some n -> 30 <= n <= 37 \/ 40 <= n <= 47 -> Atoi bad = None ->
  exists ei',
    parseOne Rune.m ei = Returned (false, Some errCSIParseError) ei'
    /\ state ei' = stateParams
    /\ csiParam ei' = csiParam ei
    /\ (30 <= n <= 37 -> curFgColor ei' = n - 30 + 1)
    /\ (40 <= n <= 47 -> curBgColor ei' = n - 40 + 1).
Proof.
  intros Hb Hm Hst Hmd Hlim Hps Hpre Hc Hn Hbad.
  rewrite (parseOne_in_params _ _ Hm Hst Hlim).
  rewrite parseOne_params_m_OutputNormal by exact Hmd.
  unfold outputNormal. simpl csiParam. rewrite Hps.
  destruct (outputNormal_loop_numeric_prefix pre (c :: bad :: post)
              (with_curch Rune.m (with_mutex true ei)) Hpre) as (ei1 & Hf & ->).
  simpl. rewrite Hc, Hbad. simpl.
  eexists. split; [reflexivity|].
  destruct (same_but_colours_fields _ _ Hf) as (Hs1 & _ & Hp1 & _).
  destruct (same_but_colours_fields _ _ (outputNormal_case_frame n ei1))
    as (Hs2 & _ & Hp2 & _).
  simpl in Hs1, Hp1. simpl.
  split; [congruence|]. split; [congruence|].
  unfold outputNormal_case. split; intros Hr.
  - replace ((30 <=? n) && (n <=? 37)) with true
      by (symmetry; apply andb_true_iff; split; apply Z.leb_le; lia).
    simpl. apply (slot_of_code n 30); lia.
  - replace ((30 <=? n) && (n <=? 37)) with false
      by (symmetry; apply andb_false_iff; right; apply Z.leb_gt; lia).
    replace (n =? 39) with false by (symmetry; apply Z.eqb_neq; lia).
    replace ((40 <=? n) && (n <=? 47)) with true
      by (symmetry; apply andb_true_iff; split; apply Z.leb_le; lia).
    simpl. apply (slot_of_code n 40); lia.
Qed.

(** ** The Extended resolver *)

Lemma output256_body_with_mutex b ei :
  output256_body (with_mutex b ei) =
  match output256_body ei with
  | Returned a e => Returned a (with_mutex b e)
  | Panicked e => Panicked (with_mutex b e)
  | Blocked e => Blocked (with_mutex b e)
  end.
Proof.
  unfold output256_body, index, returned, outputNormal. simpl csiParam.
  destruct (List.length (csiParam ei) <? 3)%nat.
  { rewrite outputNormal_loop_with_mutex. reflexivity. }
  destruct (nth_error (csiParam ei) 1) as [s1|]; [|reflexivity].
  destruct (Atoi s1) as [md|]; [|reflexivity].
  destruct (negb (md =? 5)).
  { rewrite outputNormal_loop_with_mutex. reflexivity. }
  destruct (nth_error (csiParam ei) 0) as [s0|]; [|reflexivity].
  destruct (Atoi s0) as [fgbg|]; [|reflexivity].
  destruct (nth_error (csiParam ei) 2) as [s2|]; [|reflexivity].
  destruct (Atoi s2) as [color|]; [|reflexivity].
  destruct (fgbg =? 38).
  { change (with_fg (to_Attribute (int_add color 1)) (with_mutex b ei))
      with (with_mutex b (with_fg (to_Attribute (int_add color 1)) ei)).
    rewrite output256_loop_with_mutex. reflexivity. }
  destruct (fgbg =? 48); reflexivity.
Qed.

Lemma output256_body_frame ei :
  match output256_body ei with
  | Returned _ e => same_but_colours ei e
  | Panicked e => e = ei
  | Blocked _ => False
  end.
Proof.
  unfold output256_body, index, returned, outputNormal.
  destruct (List.length (csiParam ei) <? 3)%nat.
  { apply outputNormal_loop_frame. }
  destruct (nth_error (csiParam ei) 1) as [s1|]; [|reflexivity].
  destruct (Atoi s1) as [md|]; [|apply same_but_colours_refl].
  destruct (negb (md =? 5)).
  { apply outputNormal_loop_frame. }
  destruct (nth_error (csiParam ei) 0) as [s0|]; [|reflexivity].
  destruct (Atoi s0) as [fgbg|]; [|apply same_but_colours_refl].
  destruct (nth_error (csiParam ei) 2) as [s2|]; [|reflexivity].
  destruct (Atoi s2) as [color|]; [|apply same_but_colours_refl].
  destruct (fgbg =? 38).
  { eapply same_but_colours_trans; [|apply output256_loop_frame].
    destruct ei; reflexivity. }
  destruct (fgbg =? 48); [destruct ei; reflexivity | apply same_but_colours_refl].
Qed.

(** Called with the mutex free, [output256] is its body. *)
Lemma output256_unlocked ei :
  mutex ei = false -> output256 ei = output256_body ei.
Proof.
  intros Hm. unfold output256. rewrite (locked_free _ _ Hm).
  rewrite output256_body_with_mutex.
  pose proof (output256_body_frame ei) as Hf.
  destruct (output256_body ei) as [a e|e|e].
  - destruct (same_but_colours_fields _ _ Hf) as (_ & _ & _ & _ & Hmu & _).
    rewrite with_mutex_false_true by congruence. reflexivity.
  - subst e. rewrite with_mutex_false_true by exact Hm. reflexivity.
  - contradiction.
Qed.

Lemma output256_case_modifier p ei :
  output256_case p ei = with_fg (trailing_modifier (curFgColor ei) p) ei.
Proof.
  unfold output256_case, trailing_modifier.
  destruct (p =? 1); [reflexivity|].
  destruct (p =? 4); [reflexivity|].
  destruct (p =? 7); [reflexivity|].
  destruct ei; reflexivity.
Qed.

Lemma output256_loop_numeric_prefix front : forall ns rest ei,
  Forall2 (fun s n => Atoi s = Some n) front ns ->
  output256_loop (front ++ rest) ei =
  output256_loop rest (with_fg (fold_left trailing_modifier ns (curFgColor ei)) ei).
Proof.
  induction front as [|p front IH]; intros ns rest ei Hnum;
    inversion Hnum as [|? n ? ns' Hp Hrest]; subst; simpl.
  - destruct ei; reflexivity.
  - rewrite Hp. rewrite (IH ns' rest _ Hrest).
    rewrite output256_case_modifier. reflexivity.
Qed.

(** What the body of [output256] computes, were the call made with the
    mutex free (a call [parseOne] never makes: it holds the mutex).  With
    fewer than 3 parameters, or with a second parameter that is an integer
    other than 5, it is [outputNormal].  With at least 3 parameters: a
    second parameter that [Atoi] rejects is answered by [errCSIParseError]
    with nothing assigned; when the second parameter is 5, a first or third
    parameter that [Atoi] rejects, or a first parameter other than 38 and
    48, is answered by [errCSIParseError] with nothing assigned; a first
    parameter 48 assigns [Attribute(third + 1)] to the background; a first
    parameter 38 assigns [Attribute(third + 1)] to the foreground and then
    goes through the parameters after the third, adding Bold, Underline,
    Reverse for 1, 4, 7, up to the first of them that [Atoi] rejects, which
    is answered by [errCSIParseError]. *)
Lemma output256_resolves (ei : escapeInterpreter) :
  mutex ei = false -> 9 <= attr_bits ->
  ((List.length (csiParam ei) < 3)%nat -> output256 ei = returned (outputNormal ei))
  /\ (forall p0 p1 p2 rest,
        csiParam ei = p0 :: p1 :: p2 :: rest ->
        (Atoi p1 = None -> output256 ei = Returned (Some errCSIParseError) ei)
        /\ (forall md, Atoi p1 = Some md -> md <> 5 ->
            output256 ei = returned (outputNormal ei))
        /\ (Atoi p1 = Some 5 ->
            (Atoi p0 = None \/ Atoi p2 = None ->
             output256 ei = Returned (Some errCSIParseError) ei)
            /\ (forall fgbg color,
                  Atoi p0 = Some fgbg -> Atoi p2 = Some color ->
                  (fgbg = 38 ->
                   forall ns, Forall2 (fun s n => Atoi s = Some n) rest ns ->
                   output256 ei =
                     Returned None
                       (with_fg (fold_left trailing_modifier ns
                                   (to_Attribute (int_add color 1))) ei))
                  /\ (fgbg = 38 ->
                      forall front ns bad back,
                      rest = front ++ bad :: back ->
                      Forall2 (fun s n => Atoi s = Some n) front ns ->
                      Atoi bad = None ->
                      output256 ei =
                        Returned (Some errCSIParseError)
                          (with_fg (fold_left trailing_modifier ns
                                      (to_Attribute (int_add color 1))) ei))
                  /\ (fgbg = 48 ->
                      output256 ei =
                        Returned None (with_bg (to_Attribute (int_add color 1)) ei))
                  /\ (fgbg <> 38 -> fgbg <> 48 ->
                      output256 ei = Returned (Some errCSIParseError) ei))))
  /\ (forall color, 0 <= color <= 255 -> to_Attribute (int_add color 1) = color + 1)
  /\ output256
       (with_csiParam ["38"; "5"; "196"]%string (newEscapeInterpreter Output256)) =
     Returned None
       (with_fg 197
          (with_csiParam ["38"; "5"; "196"]%string (newEscapeInterpreter Output256))).
Proof.
  intros Hm Hb.
  assert (Hslot : forall color, 0 <= color <= 255 ->
                    to_Attribute (int_add color 1) = color + 1).
  { intros color Hc. unfold int_add.
    rewrite wrap_int_small by (unfold int_min, int_max; lia).
    apply to_Attribute_small; [exact Hb | lia]. }
  split; [|split; [|split; [exact Hslot|]]].
  - intros Hlen. rewrite (output256_unlocked _ Hm). unfold output256_body.
    replace (List.length (csiParam ei) <? 3)%nat with true
      by (symmetry; apply Nat.ltb_lt; exact Hlen).
    reflexivity.
  - intros p0 p1 p2 rest Hps. rewrite (output256_unlocked _ Hm).
    unfold output256_body, index. rewrite Hps.
    change (List.length (p0 :: p1 :: p2 :: rest) <? 3)%nat with false.
    cbn [nth_error skipn].
    split; [intros ->; reflexivity|].
    split; [intros md -> Hmd;
            replace (md =? 5) with false by (symmetry; apply Z.eqb_neq; exact Hmd);
            reflexivity|].
    intros ->. change (negb (5 =? 5)) with false. cbv iota.
    split.
    { intros [-> | Hp2]; [reflexivity|].
      destruct (Atoi p0); [rewrite Hp2|]; reflexivity. }
    intros fgbg color -> ->.
    split; [|split; [|split]].
    + intros -> ns Hns. change (38 =? 38) with true. cbv iota.
      rewrite <- (app_nil_r rest).
      rewrite (output256_loop_numeric_prefix rest ns [] _ Hns).
      reflexivity.
    + intros -> front ns bad back -> Hns Hbad. change (38 =? 38) with true. cbv iota.
      rewrite (output256_loop_numeric_prefix front ns (bad :: back) _ Hns).
      simpl. rewrite Hbad. reflexivity.
    + intros ->. reflexivity.
    + intros H38 H48.
      replace (fgbg =? 38) with false by (symmetry; apply Z.eqb_neq; exact H38).
      replace (fgbg =? 48) with false by (symmetry; apply Z.eqb_neq; exact H48).
      reflexivity.
  - rewrite output256_unlocked by reflexivity.
    unfold output256_body, index, returned. simpl.
    rewrite (Hslot 196) by lia. reflexivity.
Qed.

(** ** The bytes of the stored parameters *)

(** After any history of calls, every stored parameter is made of bytes
    below 0x80, for which [runes_of_string] is the conversion of Go. *)
Lemma params_ascii_after md cs ei :
  after_calls cs (newEscapeInterpreter md) = Some ei ->
  Forall (fun s => all_ascii s = true) (csiParam ei).
Proof.
  intros Hafter.
  apply (wf_ascii _ (after_calls_well_formed _ _ _
                       (newEscapeInterpreter_well_formed md) Hafter)).
Qed.

(** * Further properties of the calls *)

(** ** Runs of characters that leave the state where it is *)

Lemma last_cons_default {A : Type} (rest : list A) : forall (a d : A),
  last (a :: rest) d = last rest a.
Proof.
  induction rest as [|b rest IH]; intros a d; [reflexivity|].
  change (last (a :: b :: rest) d) with (last (b :: rest) d).
  rewrite (IH b d), (IH b a). reflexivity.
Qed.

Lemma parseOne_too_long ch ei :
  mutex ei = false -> ~ within_limits ei ->
  parseOne ch ei = Returned (false, Some errCSITooLong) ei.
Proof.
  intros Hm Hno. unfold parseOne. rewrite (locked_free _ _ Hm).
  rewrite parseOne_body_too_long by exact Hno.
  rewrite (with_mutex_false_true _ Hm). reflexivity.
Qed.

Lemma parseOne_switch_of ch ei :
  mutex ei = false -> within_limits ei ->
  parseOne ch ei =
  match parseOne_switch ch (with_curch ch (with_mutex true ei)) with
  | Returned a ei' => Returned a (with_mutex false ei')
  | Panicked ei' => Panicked (with_mutex false ei')
  | Blocked ei' => Blocked ei'
  end.
Proof.
  intros Hm Hlim. unfold parseOne. rewrite (locked_free _ _ Hm).
  rewrite parseOne_body_within_limits by exact Hlim. reflexivity.
Qed.

Lemma relock_with_curch ch ei :
  mutex ei = false ->
  with_mutex false (with_curch ch (with_mutex true ei)) = with_curch ch ei.
Proof. destruct ei; simpl; intros ->; reflexivity. Qed.

Lemma parseOne_idle ch ei :
  mutex ei = false -> state ei = stateNone -> within_limits ei ->
  parseOne ch ei =
  if ch =? Rune.ESC
  then Returned (true, None) (with_state stateEscape (with_curch ch ei))
  else Returned (false, None) (with_curch ch ei).
Proof.
  intros Hm Hst Hlim. rewrite (parseOne_switch_of _ _ Hm Hlim).
  unfold parseOne_switch. simpl state. rewrite Hst.
  destruct (ch =? Rune.ESC).
  - destruct ei; simpl in *; subst; reflexivity.
  - rewrite (relock_with_curch _ _ Hm). reflexivity.
Qed.

Lemma parseOne_escape ch ei :
  mutex ei = false -> state ei = stateEscape -> within_limits ei ->
  parseOne ch ei =
  if ch =? Rune.lbracket
  then Returned (true, None) (with_state stateCSI (with_curch ch ei))
  else Returned (false, Some errNotCSI) (with_curch ch ei).
Proof.
  intros Hm Hst Hlim. rewrite (parseOne_switch_of _ _ Hm Hlim).
  unfold parseOne_switch. simpl state. rewrite Hst.
  destruct (ch =? Rune.lbracket).
  - destruct ei; simpl in *; subst; reflexivity.
  - rewrite (relock_with_curch _ _ Hm). reflexivity.
Qed.

(** X1: outside a sequence ([stateNone]), a run of characters none of which
    is ESC is handed back as text: every call returns [false] and no
    error, and the interpreter changes in its current rune only. *)
Theorem idle_passes_text_through (ei : escapeInterpreter) (chs : list rune) :
  mutex ei = false -> state ei = stateNone -> within_limits ei ->
  Forall (fun ch => ch <> Rune.ESC) chs ->
  feed chs ei =
    Returned (map (fun _ => (false, None)) chs)
      (with_curch (last chs (curch ei)) ei).
Proof.
  intros Hm Hst Hlim Hchs. revert ei Hm Hst Hlim.
  induction Hchs as [|ch rest Hch _ IH]; intros ei Hm Hst Hlim.
  - destruct ei; reflexivity.
  - cbn [feed]. rewrite (parseOne_idle _ _ Hm Hst Hlim).
    replace (ch =? Rune.ESC) with false by (symmetry; apply Z.eqb_neq; exact Hch).
    rewrite (IH (with_curch ch ei) Hm Hst Hlim).
    rewrite last_cons_default. reflexivity.
Qed.

(** X2: after ESC, a character other than '[' is answered by [errNotCSI]
    and the state stays [stateEscape]: every further character other than
    '[' gets the same answer, and [runes] returns ESC and the last of
    them. *)
Theorem escape_state_is_sticky (ei : escapeInterpreter) (ch : rune) (chs : list rune) :
  mutex ei = false -> state ei = stateEscape -> within_limits ei ->
  Forall (fun c => c <> Rune.lbracket) (ch :: chs) ->
  feed (ch :: chs) ei =
    Returned (map (fun _ => (false, Some errNotCSI)) (ch :: chs))
      (with_curch (last chs ch) ei)
  /\ state (with_curch (last chs ch) ei) = stateEscape
  /\ runes (with_curch (last chs ch) ei) =
       Returned [Rune.ESC; last chs ch] (with_curch (last chs ch) ei).
Proof.
  intros Hm Hst Hlim Hchs. split; [|split; [exact Hst|]].
  - rewrite <- (last_cons_default chs ch (curch ei)).
    revert ei Hm Hst Hlim.
    induction Hchs as [|c rest Hc _ IH]; intros ei Hm Hst Hlim.
    + destruct ei; reflexivity.
    + cbn [feed]. rewrite (parseOne_escape _ _ Hm Hst Hlim).
      replace (c =? Rune.lbracket) with false
        by (symmetry; apply Z.eqb_neq; exact Hc).
      rewrite (IH (with_curch c ei) Hm Hst Hlim).
      rewrite (last_cons_default rest c (curch ei)). reflexivity.
  - unfold runes. rewrite locked_free by exact Hm. simpl state. rewrite Hst.
    rewrite with_mutex_false_true by exact Hm. reflexivity.
Qed.

(** X3: once a sanity check of [parseOne] fails, it fails for every
    character: the whole run is answered by [errCSITooLong] and the
    interpreter stays as it is, until [reset], after which both checks
    pass again. *)
Theorem too_long_locks_until_reset (ei : escapeInterpreter) (chs : list rune) :
  mutex ei = false -> ~ within_limits ei ->
  feed chs ei = Returned (map (fun _ => (false, Some errCSITooLong)) chs) ei
  /\ exists ei', reset ei = Returned tt ei' /\ within_limits ei'.
Proof.
  intros Hm Hno. split.
  - induction chs as [|ch rest IH]; [reflexivity|].
    cbn [feed]. rewrite (parseOne_too_long _ _ Hm Hno), IH. reflexivity.
  - unfold reset. rewrite (locked_free _ _ Hm). eexists. split; [reflexivity|].
    split; simpl; lia.
Qed.

(** ** What one call can change *)

Lemma parseOne_params_fields ch e r e' :
  mutex e = true -> parseOne_params ch e = Returned r e' ->
  mode e' = mode e /\ (state e' = state e \/ state e' = stateNone).
Proof.
  intros Hm Hret.
  destruct (parseOne_params_returns _ _ _ _ Hm Hret)
    as [(_ & _ & _ & ->) | [(_ & _ & ->) | [(_ & Hf) | (_ & Hs & _ & _ & Hmd & _)]]].
  - split; [reflexivity | left; reflexivity].
  - split; [reflexivity | left; reflexivity].
  - destruct (same_but_colours_fields _ _ Hf) as (Hs & _ & _ & Hmd & _).
    split; [exact Hmd | left; exact Hs].
  - split; [exact Hmd | right; exact Hs].
Qed.

Lemma parseOne_params_param_rune ch e :
  is_param_rune ch = true -> csiParam e <> [] ->
  parseOne_params ch e =
  Returned (true, None)
    (with_csiParam
       (removelast (csiParam e)
          ++ [(last (csiParam e) EmptyString ++ string_of_rune ch)%string]) e).
Proof.
  unfold is_param_rune. intros Hch Hne. unfold parseOne_params, append_to_last.
  rewrite Hch. destruct (csiParam e); [contradiction | reflexivity].
Qed.

(** Case analysis on a returning call of [parseOne]: the mutex was free;
    either a sanity check failed and nothing changed, or the [switch] ran
    in the state [Est] names.  In the cases that reach [parseOne_params]
    the hypothesis is left as a [match] on its outcome. *)
Ltac parseOne_cases Hret ei Hm Hlim Est :=
  destruct (mutex ei) eqn:Hm;
  [ unfold parseOne in Hret; rewrite (locked_held _ _ Hm) in Hret; discriminate | ];
  destruct (within_limits_dec ei) as [Hlim|Hlim];
  [ rewrite (parseOne_switch_of _ _ Hm Hlim) in Hret;
    unfold parseOne_switch in Hret; simpl state in Hret;
    destruct (state ei) eqn:Est
  | rewrite (parseOne_too_long _ _ Hm Hlim) in Hret ].

(** In a hypothesis [match o with ... end = Returned r ei'], name the
    outcome [o] of the [stateParams] case. *)
Ltac params_outcome Hret Ep :=
  match type of Hret with
  | match ?o with _ => _ end = _ =>
      destruct o as [?r1 ?e1| |] eqn:Ep; try discriminate Hret;
      injection Hret as <- <-
  end.

Lemma parseOne_mode ch ei r ei' :
  parseOne ch ei = Returned r ei' -> mode ei' = mode ei.
Proof.
  intros Hret. parseOne_cases Hret ei Hm Hlim Est.
  - destruct (ch =? Rune.ESC); injection Hret as <- <-; reflexivity.
  - destruct (ch =? Rune.lbracket); injection Hret as <- <-; reflexivity.
  - assert (Hfall : forall e,
              mutex e = true -> mode e = mode ei ->
              match parseOne_params ch e with
              | Returned a e' => Returned a (with_mutex false e')
              | Panicked e' => Panicked (with_mutex false e')
              | Blocked e' => Blocked e'
              end = Returned r ei' -> mode ei' = mode ei).
    { intros e He Hmd Hp. params_outcome Hp Ep.
      apply parseOne_params_fields in Ep as [Hmd' _]; [|exact He].
      simpl. congruence. }
    destruct (is_digit_rune ch); [revert Hret; apply Hfall; reflexivity|].
    destruct (ch =? Rune.m); [revert Hret; apply Hfall; reflexivity|].
    destruct (ch =? Rune.K); [injection Hret as <- <-; reflexivity|].
    destruct (ch =? Rune.question); [revert Hret; apply Hfall; reflexivity|].
    injection Hret as <- <-; reflexivity.
  - params_outcome Hret Ep.
    apply parseOne_params_fields in Ep as [Hmd _]; [exact Hmd | reflexivity].
  - injection Hret as <- <-; reflexivity.
Qed.

Lemma after_calls_mode cs : forall md ei,
  mode ei = md -> forall ei', after_calls cs ei = Some ei' -> mode ei' = md.
Proof.
  induction cs as [|c cs IH]; intros md ei Hmd ei'; simpl.
  - intros [= <-]. exact Hmd.
  - destruct (after_call c ei) as [ei1|] eqn:Ec; [|discriminate].
    apply (IH md). destruct c as [ch| | |]; simpl in Ec.
    + destruct (parseOne ch ei) as [r e| |] eqn:Ep; try discriminate.
      injection Ec as <-. rewrite (parseOne_mode _ _ _ _ Ep). exact Hmd.
    + unfold reset, locked in Ec. destruct (mutex ei); [discriminate|].
      injection Ec as <-. exact Hmd.
    + injection Ec as <-. exact Hmd.
    + unfold runes, locked in Ec. destruct (mutex ei); [discriminate|].
      simpl in Ec. destruct (state ei); injection Ec as <-; exact Hmd.
Qed.

(** Membership in a list that is written out. *)
Ltac in_list :=
  simpl; try match goal with E : state _ = _ |- _ => rewrite E end;
  repeat match goal with
         | |- _ \/ _ => (left; reflexivity) || right
         end.

(** X4: a returning call of [parseOne] moves the state along one of the
    arrows None-Escape-CSI-Params-None or leaves it: it never enters a
    sequence but through ESC and '[', and leaves [stateParams] only for
    [stateNone]. *)
Theorem parseOne_follows_transitions
    (ch : rune) (ei : escapeInterpreter) (r : bool * option error)
    (ei' : escapeInterpreter) :
  parseOne ch ei = Returned r ei' -> In (state ei, state ei') transitions.
Proof.
  intros Hret. parseOne_cases Hret ei Hm Hlim Est.
  - destruct (ch =? Rune.ESC); injection Hret as <- <-; in_list.
  - destruct (ch =? Rune.lbracket); injection Hret as <- <-; in_list.
  - assert (Hfall : forall e,
              mutex e = true -> state e = stateParams ->
              match parseOne_params ch e with
              | Returned a e' => Returned a (with_mutex false e')
              | Panicked e' => Panicked (with_mutex false e')
              | Blocked e' => Blocked e'
              end = Returned r ei' -> In (stateCSI, state ei') transitions).
    { intros e He Hse Hp. params_outcome Hp Ep.
      apply parseOne_params_fields in Ep as [_ [Hs|Hs]]; [| |exact He];
        simpl; rewrite Hs, ?Hse; in_list. }
    destruct (is_digit_rune ch); [revert Hret; apply Hfall; reflexivity|].
    destruct (ch =? Rune.m); [revert Hret; apply Hfall; reflexivity|].
    destruct (ch =? Rune.K); [injection Hret as <- <-; in_list|].
    destruct (ch =? Rune.question); [revert Hret; apply Hfall; reflexivity|].
    injection Hret as <- <-; in_list.
  - params_outcome Hret Ep.
    (apply parseOne_params_fields in Ep as [_ [Hs|Hs]]; [| |reflexivity]);
      simpl in Hs |- *; rewrite Hs; in_list.
  - injection Hret as <- <-. destruct (state ei); in_list.
Qed.

Lemma parseOne_params_colours ch e r e' :
  ch <> Rune.m -> parseOne_params ch e = Returned r e' ->
  curFgColor e' = curFgColor e /\ curBgColor e' = curBgColor e.
Proof.
  intros Hch. apply Z.eqb_neq in Hch.
  unfold parseOne_params, append_to_last, index. rewrite Hch.
  destruct (is_digit_rune ch || (ch =? Rune.question)).
  { destruct (csiParam e); [discriminate|]. intros [= <- <-]. split; reflexivity. }
  destruct (ch =? Rune.semicolon); [intros [= <- <-]; split; reflexivity|].
  destruct ((ch =? Rune.A) || (ch =? Rune.B) || (ch =? Rune.C) || (ch =? Rune.D)).
  { destruct (nth_error (csiParam e) 0) as [s0|]; [|discriminate].
    destruct (Atoi s0); intros [= <- <-]; split; reflexivity. }
  destruct (ch =? Rune.J); [intros [= <- <-]; split; reflexivity|].
  destruct (ch =? Rune.h).
  { destruct (nth_error (csiParam e) 0) as [s0|]; [|discriminate].
    destruct (String.eqb s0 "?25"); intros [= <- <-]; split; reflexivity. }
  destruct (ch =? Rune.l).
  { destruct (nth_error (csiParam e) 0) as [s0|]; [|discriminate].
    destruct (String.eqb s0 "?25"); intros [= <- <-]; split; reflexivity. }
  intros [= <- <-]; split; reflexivity.
Qed.

(** X5: the colours change at an 'm' terminator only: a returning call of
    [parseOne] for any other character leaves the foreground and the
    background as they were. *)
Theorem colours_change_only_at_m
    (ch : rune) (ei : escapeInterpreter) (r : bool * option error)
    (ei' : escapeInterpreter) :
  ch <> Rune.m -> parseOne ch ei = Returned r ei' ->
  curFgColor ei' = curFgColor ei /\ curBgColor ei' = curBgColor ei.
Proof.
  intros Hch Hret. parseOne_cases Hret ei Hm Hlim Est.
  - destruct (ch =? Rune.ESC); injection Hret as <- <-; split; reflexivity.
  - destruct (ch =? Rune.lbracket); injection Hret as <- <-; split; reflexivity.
  - assert (Hfall : forall e,
              curFgColor e = curFgColor ei -> curBgColor e = curBgColor ei ->
              match parseOne_params ch e with
              | Returned a e' => Returned a (with_mutex false e')
              | Panicked e' => Panicked (with_mutex false e')
              | Blocked e' => Blocked e'
              end = Returned r ei' ->
              curFgColor ei' = curFgColor ei /\ curBgColor ei' = curBgColor ei).
    { intros e Hfg Hbg Hp. params_outcome Hp Ep.
      apply (parseOne_params_colours _ _ _ _ Hch) in Ep as [Hf Hb].
      simpl. split; congruence. }
    destruct (is_digit_rune ch); [revert Hret; apply Hfall; reflexivity|].
    destruct (ch =? Rune.m); [revert Hret; apply Hfall; reflexivity|].
    destruct (ch =? Rune.K); [injection Hret as <- <-; split; reflexivity|].
    destruct (ch =? Rune.question); [revert Hret; apply Hfall; reflexivity|].
    injection Hret as <- <-; split; reflexivity.
  - params_outcome Hret Ep.
    apply (parseOne_params_colours _ _ _ _ Hch) in Ep as [Hf Hb].
    simpl in *. split; assumption.
  - injection Hret as <- <-; split; reflexivity.
Qed.

(** ** Errors *)

(** X6: after any history of calls, a call of [parseOne] that reports an
    error reports [false] with it and leaves the state, the parameters, the
    instruction and the mode as they were: the interpreter does not leave
    a sequence by itself. *)
Theorem error_keeps_the_sequence
    (md : OutputMode) (cs : list call) (ei : escapeInterpreter)
    (ch : rune) (b : bool) (err : error) (ei' : escapeInterpreter) :
  after_calls cs (newEscapeInterpreter md) = Some ei ->
  parseOne ch ei = Returned (b, Some err) ei' ->
  b = false
  /\ state ei' = state ei /\ csiParam ei' = csiParam ei
  /\ instr ei' = instr ei /\ mode ei' = mode ei.
Proof.
  intros Hafter Hret.
  pose proof (after_calls_well_formed _ _ _ (newEscapeInterpreter_well_formed md) Hafter)
    as Hwf.
  parseOne_cases Hret ei Hm Hlim Est.
  - destruct (ch =? Rune.ESC); discriminate Hret.
  - destruct (ch =? Rune.lbracket); [discriminate Hret|].
    injection Hret as <- <- <-. simpl. rewrite Est. repeat split.
  - assert (Hnil : csiParam ei = []) by (apply (wf_idle _ Hwf); congruence).
    change (csiParam (with_curch ch (with_mutex true ei))) with (csiParam ei) in Hret.
    rewrite Hnil in Hret. simpl app in Hret.
    destruct (is_digit_rune ch) eqn:Hdig.
    { rewrite parseOne_params_param_rune in Hret;
        [discriminate Hret | unfold is_param_rune; rewrite Hdig; reflexivity
        | discriminate]. }
    destruct (ch =? Rune.m) eqn:Hisem.
    { apply Z.eqb_eq in Hisem. subst ch. destruct (mode ei) eqn:Hmd.
      - rewrite parseOne_params_m_OutputNormal in Hret by exact Hmd.
        discriminate Hret.
      - destruct (parseOne_params_outcome Rune.m
                    (with_state stateParams
                       (with_csiParam ["0"%string]
                          (with_curch Rune.m (with_mutex true ei)))))
          as [Hblock _]; [reflexivity | discriminate|].
        rewrite (Hblock Hmd eq_refl) in Hret. discriminate Hret. }
    destruct (ch =? Rune.K); [discriminate Hret|].
    destruct (ch =? Rune.question) eqn:Hq.
    { rewrite parseOne_params_param_rune in Hret;
        [discriminate Hret
        | unfold is_param_rune; rewrite Hq; apply orb_true_r
        | discriminate]. }
    injection Hret as <- <- <-. simpl. rewrite Est. repeat split.
  - destruct (parseOne_params ch (with_curch ch (with_mutex true ei)))
      as [r1 e1| |] eqn:Ep; try discriminate Hret.
    injection Hret as Hr1 <-.
    apply parseOne_params_returns in Ep; [|reflexivity].
    destruct Ep as [(Hr & _) | [(Hr & _) | [(Hr & Hf) | (Hr & _)]]];
      rewrite Hr in Hr1; try discriminate Hr1.
    injection Hr1 as <- _.
    destruct (same_but_colours_fields _ _ Hf) as (Hs & _ & Hp & Hmd & _ & Hi).
    simpl in *. repeat split; congruence.
  - injection Hret as <- <- <-. repeat split.
Qed.

(** ** Calls that return *)

(** X7: after any history of calls, a call of [parseOne] never panics: the
    two places that index [csiParam] are reached with a parameter in it.
    In mode [OutputNormal] every call returns; and [runes] and [reset]
    return in both modes. *)
Theorem calls_never_panic
    (md : OutputMode) (cs : list call) (ei : escapeInterpreter) (ch : rune) :
  after_calls cs (newEscapeInterpreter md) = Some ei ->
  (forall e, parseOne ch ei <> Panicked e)
  /\ (md = OutputNormal -> exists r ei', parseOne ch ei = Returned r ei')
  /\ (exists rs, runes ei = Returned rs ei)
  /\ (exists ei', reset ei = Returned tt ei').
Proof.
  intros Hafter.
  pose proof (after_calls_well_formed _ _ _ (newEscapeInterpreter_well_formed md) Hafter)
    as Hwf.
  pose proof (after_calls_mode cs md (newEscapeInterpreter md) eq_refl _ Hafter) as Hmd.
  pose proof (wf_mutex _ Hwf) as Hm.
  destruct (parseOne_outcome ch ei Hwf) as [Hblock Hreturn].
  split; [|split; [|split]].
  - intros e Hpanic.
    assert (Hdec : (mode ei = Output256 /\ ch = Rune.m /\ within_limits ei
                    /\ (state ei = stateCSI \/ state ei = stateParams))
                   \/ ~ (mode ei = Output256 /\ ch = Rune.m /\ within_limits ei
                         /\ (state ei = stateCSI \/ state ei = stateParams))).
    { destruct (mode ei); [right; intros [? _]; discriminate|].
      destruct (Z.eq_dec ch Rune.m) as [Hc|Hc]; [|right; tauto].
      destruct (within_limits_dec ei); [|right; tauto].
      destruct (state ei);
        try (left; split; [reflexivity|];
             split; [assumption|]; split; [assumption|]; auto; fail);
        right; intros (_ & _ & _ & [?|?]); discriminate. }
    destruct Hdec as [Hyes|Hno].
    + destruct (Hblock Hyes) as (e1 & He1). congruence.
    + destruct (Hreturn Hno) as (r & e1 & He1). congruence.
  - intros ->. apply Hreturn. rewrite Hmd. intros [? _]. discriminate.
  - unfold runes. rewrite (locked_free _ _ Hm). simpl state.
    destruct (state ei); simpl; rewrite (with_mutex_false_true _ Hm); eauto.
  - unfold reset. rewrite (locked_free _ _ Hm). eauto.
Qed.

(** X8: after any history of calls from [newEscapeInterpreter md], the mode
    is still [md] and the mutex is released. *)
Theorem mode_is_fixed_and_mutex_released
    (md : OutputMode) (cs : list call) (ei : escapeInterpreter) :
  after_calls cs (newEscapeInterpreter md) = Some ei ->
  mode ei = md /\ mutex ei = false.
Proof.
  intros Hafter. split.
  - apply (after_calls_mode cs md (newEscapeInterpreter md) eq_refl _ Hafter).
  - apply (wf_mutex _ (after_calls_well_formed _ _ _
                         (newEscapeInterpreter_well_formed md) Hafter)).
Qed.

(** ** Whole sequences *)

Lemma string_append_empty_r (a : string) : (a ++ EmptyString)%string = a.
Proof. induction a as [|c a IH]; simpl; [reflexivity | now rewrite IH]. Qed.

Lemma string_append_assoc (a b c : string) :
  ((a ++ b) ++ c)%string = (a ++ (b ++ c))%string.
Proof. induction a as [|x a IH]; simpl; [reflexivity | now rewrite IH]. Qed.

Lemma runes_of_string_append (a b : string) :
  runes_of_string (a ++ b) = runes_of_string a ++ runes_of_string b.
Proof. induction a as [|x a IH]; simpl; [reflexivity | now rewrite IH]. Qed.

Lemma string_of_runes_length (chs : list rune) :
  String.length (string_of_runes chs) = List.length chs.
Proof. induction chs as [|c chs IH]; simpl; [reflexivity | now rewrite IH]. Qed.

Lemma runes_of_string_of_runes (chs : list rune) :
  Forall (fun c => is_param_rune c = true) chs ->
  runes_of_string (string_of_runes chs) = chs.
Proof.
  induction 1 as [|c chs Hc _ IH]; [reflexivity|].
  cbn [string_of_runes]. rewrite runes_of_string_append, IH.
  destruct (param_rune_ascii c Hc) as [_ ->]. reflexivity.
Qed.

Lemma feed_app (a : list rune) : forall (b : list rune) ei ra ei1,
  feed a ei = Returned ra ei1 ->
  feed (a ++ b) ei =
  match feed b ei1 with
  | Returned rb ei2 => Returned (ra ++ rb) ei2
  | Panicked ei2 => Panicked ei2
  | Blocked ei2 => Blocked ei2
  end.
Proof.
  induction a as [|c a IH]; intros b ei ra ei1; simpl.
  - intros [= <- <-]. destruct (feed b ei); reflexivity.
  - destruct (parseOne c ei) as [r e| |]; try discriminate.
    destruct (feed a e) as [rs e'| |] eqn:Ea; try discriminate.
    intros [= <- <-]. rewrite (IH b e rs e' Ea).
    destruct (feed b e'); reflexivity.
Qed.

(** One more character of the current parameter. *)
Lemma parseOne_param_rune ch ei front s :
  mutex ei = false -> state ei = stateParams -> csiParam ei = front ++ [s] ->
  (List.length front <= 19)%nat -> (String.length s <= 255)%nat ->
  is_param_rune ch = true ->
  parseOne ch ei =
  Returned (true, None)
    (with_curch ch (with_csiParam (front ++ [(s ++ string_of_rune ch)%string]) ei)).
Proof.
  intros Hm Hst Hps Hn Hl Hch.
  assert (Hlim : within_limits ei).
  { split; rewrite Hps; [rewrite length_app; simpl; lia | rewrite last_last; exact Hl]. }
  rewrite (parseOne_in_params _ _ Hm Hst Hlim).
  rewrite parseOne_params_param_rune;
    [|exact Hch | simpl; rewrite Hps; intros Habs;
                  apply app_eq_nil in Habs as [_ Habs]; discriminate].
  simpl csiParam. rewrite Hps, removelast_last, last_last.
  destruct ei; simpl in *; subst; reflexivity.
Qed.

(** A run of characters of the current parameter. *)
Lemma feed_param_runes (ds : list rune) : forall ei front s,
  mutex ei = false -> state ei = stateParams -> csiParam ei = front ++ [s] ->
  (List.length front <= 19)%nat ->
  (String.length s + List.length ds <= 256)%nat ->
  Forall (fun d => is_param_rune d = true) ds ->
  feed ds ei =
  Returned (map (fun _ => (true, None)) ds)
    (with_curch (last ds (curch ei))
       (with_csiParam (front ++ [(s ++ string_of_runes ds)%string]) ei)).
Proof.
  induction ds as [|d ds IH]; intros ei front s Hm Hst Hps Hn Hl Hds.
  - simpl. rewrite string_append_empty_r, <- Hps. destruct ei; reflexivity.
  - inversion Hds as [|? ? Hd Hds']; subst. simpl in Hl. cbn [feed].
    rewrite (parseOne_param_rune d ei front s Hm Hst Hps Hn) by (lia || exact Hd).
    rewrite (IH (with_curch d
                   (with_csiParam (front ++ [(s ++ string_of_rune d)%string]) ei))
               front (s ++ string_of_rune d)%string Hm Hst eq_refl Hn);
      [|rewrite string_length_append; simpl; lia | exact Hds'].
    rewrite last_cons_default. cbn [string_of_runes map].
    rewrite string_append_assoc. reflexivity.
Qed.

(** The first character of the first parameter, in [stateCSI]. *)
Lemma parseOne_csi_param_rune ch ei :
  mutex ei = false -> state ei = stateCSI -> csiParam ei = [] ->
  is_param_rune ch = true ->
  parseOne ch ei =
  Returned (true, None)
    (with_curch ch (with_csiParam [string_of_rune ch] (with_state stateParams ei))).
Proof.
  intros Hm Hst Hps Hch.
  assert (Hlim : within_limits ei) by (split; rewrite Hps; simpl; lia).
  rewrite (parseOne_switch_of _ _ Hm Hlim).
  unfold parseOne_switch. simpl state. rewrite Hst.
  change (csiParam (with_curch ch (with_mutex true ei))) with (csiParam ei).
  rewrite Hps. simpl app.
  assert (Hopen : parseOne_params ch
                    (with_state stateParams
                       (with_csiParam [EmptyString] (with_curch ch (with_mutex true ei))))
                  = Returned (true, None)
                      (with_csiParam [string_of_rune ch]
                         (with_state stateParams
                            (with_curch ch (with_mutex true ei))))).
  { rewrite parseOne_params_param_rune; [reflexivity | exact Hch | discriminate]. }
  unfold is_param_rune in Hch.
  destruct (is_digit_rune ch) eqn:Hdig.
  - rewrite Hopen. destruct ei; simpl in *; subst; reflexivity.
  - simpl in Hch. apply Z.eqb_eq in Hch. subst ch.
    change (Rune.question =? Rune.m) with false.
    change (Rune.question =? Rune.K) with false.
    change (Rune.question =? Rune.question) with true. cbv iota.
    rewrite Hopen. destruct ei; simpl in *; subst; reflexivity.
Qed.

Lemma unsupported_tests ch :
  unsupported ch ->
  is_digit_rune ch = false
  /\ (ch =? Rune.question) = false /\ (ch =? Rune.semicolon) = false
  /\ (ch =? Rune.m) = false /\ (ch =? Rune.A) = false /\ (ch =? Rune.B) = false
  /\ (ch =? Rune.C) = false /\ (ch =? Rune.D) = false /\ (ch =? Rune.J) = false
  /\ (ch =? Rune.K) = false /\ (ch =? Rune.h) = false /\ (ch =? Rune.l) = false.
Proof.
  intros [Hdig Hno]. split; [exact Hdig|].
  repeat split; apply Z.eqb_neq; intros ->; apply Hno; simpl; tauto.
Qed.

(** A character that nothing handles, after ESC [ and after parameters. *)
Lemma parseOne_unsupported ch ei :
  mutex ei = false -> state ei = stateCSI \/ state ei = stateParams ->
  within_limits ei -> unsupported ch ->
  parseOne ch ei = Returned (false, Some errCSIParseError) (with_curch ch ei).
Proof.
  intros Hm Hst Hlim Hch.
  destruct (unsupported_tests ch Hch)
    as (Hdig & Hq & Hsemi & Hisem & HA & HB & HC & HD & HJ & HK & Hh & Hl).
  rewrite (parseOne_switch_of _ _ Hm Hlim).
  unfold parseOne_switch. simpl state. destruct Hst as [-> | ->].
  - rewrite Hdig, Hisem, HK, Hq. rewrite (relock_with_curch _ _ Hm). reflexivity.
  - unfold parseOne_params.
    rewrite Hdig, Hq, Hsemi, Hisem, HA, HB, HC, HD, HJ, Hh, Hl. simpl.
    rewrite (relock_with_curch _ _ Hm). reflexivity.
Qed.

(** The way into a sequence: ESC and '[' from [stateNone]. *)
Lemma feed_introducer ei :
  mutex ei = false -> state ei = stateNone -> csiParam ei = [] ->
  feed [Rune.ESC; Rune.lbracket] ei =
  Returned [(true, None); (true, None)]
    (with_state stateCSI (with_curch Rune.lbracket ei)).
Proof.
  intros Hm Hst Hps.
  assert (Hlim : within_limits ei) by (split; rewrite Hps; simpl; lia).
  cbn [feed]. rewrite (parseOne_idle _ _ Hm Hst Hlim).
  change (Rune.ESC =? Rune.ESC) with true. cbv iota.
  rewrite (parseOne_escape Rune.lbracket
             (with_state stateEscape (with_curch Rune.ESC ei)) Hm eq_refl Hlim).
  reflexivity.
Qed.

(** The interpreter after ESC [ and the parameter characters [d :: ds]. *)
Lemma feed_first_parameter d ds ei :
  mutex ei = false -> state ei = stateNone -> csiParam ei = [] ->
  Forall (fun c => is_param_rune c = true) (d :: ds) ->
  (List.length (d :: ds) <= 256)%nat ->
  feed (Rune.ESC :: Rune.lbracket :: d :: ds) ei =
  Returned (map (fun _ => (true, None)) (Rune.ESC :: Rune.lbracket :: d :: ds))
    (with_curch (last ds d)
       (with_csiParam [string_of_runes (d :: ds)] (with_state stateParams ei))).
Proof.
  intros Hm Hst Hps Hds Hlen. inversion Hds as [|? ? Hd Hds']; subst.
  change (Rune.ESC :: Rune.lbracket :: d :: ds)
    with ([Rune.ESC; Rune.lbracket] ++ d :: ds).
  rewrite (feed_app _ _ _ _ _ (feed_introducer ei Hm Hst Hps)).
  cbn [feed].
  rewrite parseOne_csi_param_rune; [|exact Hm | reflexivity | exact Hps | exact Hd].
  rewrite (feed_param_runes ds
             (with_curch d
                (with_csiParam [string_of_rune d]
                   (with_state stateParams
                      (with_state stateCSI (with_curch Rune.lbracket ei)))))
             [] (string_of_rune d) Hm eq_refl eq_refl);
    [|simpl; lia | simpl in Hlen |- *; lia | exact Hds'].
  simpl. destruct ei; simpl in *; subst; reflexivity.
Qed.

(** X9: ESC [, then digits and '?' (at most 255 of them, no separator),
    then a character that nothing handles: the last call reports
    [errCSIParseError], and [runes] returns exactly the characters fed
    since ESC, in order. *)
Theorem runes_round_trip_without_separator
    (ei : escapeInterpreter) (ds : list rune) (ch : rune) :
  mutex ei = false -> state ei = stateNone -> csiParam ei = [] ->
  Forall (fun c => is_param_rune c = true) ds ->
  (List.length ds <= 255)%nat -> unsupported ch ->
  exists ei',
    feed (Rune.ESC :: Rune.lbracket :: ds ++ [ch]) ei =
      Returned (map (fun _ => (true, None)) (Rune.ESC :: Rune.lbracket :: ds)
                  ++ [(false, Some errCSIParseError)]) ei'
    /\ runes ei' = Returned (Rune.ESC :: Rune.lbracket :: ds ++ [ch]) ei'.
Proof.
  intros Hm Hst Hps Hds Hlen Hch.
  destruct ds as [|d ds].
  - eexists. split.
    + change (Rune.ESC :: Rune.lbracket :: [] ++ [ch])
        with ([Rune.ESC; Rune.lbracket] ++ [ch]).
      rewrite (feed_app _ _ _ _ _ (feed_introducer ei Hm Hst Hps)).
      cbn [feed].
      rewrite parseOne_unsupported;
        [reflexivity | exact Hm | left; reflexivity | | exact Hch].
      split; simpl; rewrite Hps; simpl; lia.
    + unfold runes. rewrite locked_free by exact Hm. simpl.
      destruct ei; simpl in *; subst; reflexivity.
  - eexists. split.
    + change (Rune.ESC :: Rune.lbracket :: (d :: ds) ++ [ch])
        with ((Rune.ESC :: Rune.lbracket :: d :: ds) ++ [ch]).
      rewrite (feed_app _ _ _ _ _
                 (feed_first_parameter d ds ei Hm Hst Hps Hds ltac:(simpl in *; lia))).
      cbn [feed].
      rewrite parseOne_unsupported;
        [reflexivity | exact Hm | right; reflexivity | | exact Hch].
      split; [simpl; lia|].
      change (String.length (string_of_runes (d :: ds)) <= 255)%nat.
      rewrite string_of_runes_length. exact Hlen.
    + unfold runes. rewrite locked_free by exact Hm. simpl state. simpl csiParam.
      cbn [fold_left].
      change (String (ascii_of_N (Z.to_N d)) (string_of_runes ds))
        with (string_of_runes (d :: ds)).
      rewrite (runes_of_string_of_runes _ Hds).
      rewrite with_mutex_false_true by exact Hm. reflexivity.
Qed.

(** ** Cursor counts *)

Lemma digit_rune_ascii (d : rune) :
  is_digit_rune d = true ->
  is_digit (ascii_of_N (Z.to_N d)) = true
  /\ Z.of_N (N_of_ascii (ascii_of_N (Z.to_N d))) = d.
Proof.
  unfold is_digit_rune, Rune.zero, Rune.nine, is_digit. intros Hd.
  apply andb_true_iff in Hd as [H1 H2]. apply Z.leb_le in H1, H2.
  rewrite N_ascii_embedding by lia. rewrite Z2N.id by lia.
  split; [|reflexivity].
  apply andb_true_iff; split; apply Z.leb_le; lia.
Qed.

Lemma digits_value_string (ds : list rune) : forall acc,
  Forall (fun d => is_digit_rune d = true) ds ->
  digits_value (string_of_runes ds) acc
  = Some (fold_left (fun a d => a * 10 + (d - Rune.zero)) ds acc).
Proof.
  induction ds as [|d ds IH]; intros acc Hds; [reflexivity|].
  inversion Hds as [|? ? Hd Hds']; subst.
  destruct (digit_rune_ascii d Hd) as [Hdig Hval].
  change (string_of_runes (d :: ds))
    with (String (ascii_of_N (Z.to_N d)) (string_of_runes ds)).
  cbn [digits_value fold_left]. rewrite Hdig, Hval. apply IH, Hds'.
Qed.

Lemma decimal_fold_nonneg (ds : list rune) : forall acc,
  Forall (fun d => is_digit_rune d = true) ds -> 0 <= acc ->
  0 <= fold_left (fun a d => a * 10 + (d - Rune.zero)) ds acc.
Proof.
  induction ds as [|d ds IH]; intros acc Hds Hacc; [exact Hacc|].
  inversion Hds as [|? ? Hd Hds']; subst. cbn [fold_left]. apply IH; [exact Hds'|].
  unfold is_digit_rune, Rune.zero in *.
  apply andb_true_iff in Hd as [H1 _]. apply Z.leb_le in H1. lia.
Qed.

(** [Atoi] on the string of a run of digits: its decimal value, when the
    value fits an [int]. *)
Lemma Atoi_digits (d : rune) (ds : list rune) :
  Forall (fun c => is_digit_rune c = true) (d :: ds) ->
  Atoi (string_of_runes (d :: ds)) =
  if decimal_value (d :: ds) <=? int_max then Some (decimal_value (d :: ds)) else None.
Proof.
  intros Hds. pose proof (digits_value_string (d :: ds) 0 Hds) as Hval.
  pose proof (decimal_fold_nonneg (d :: ds) 0 Hds (Z.le_refl 0)) as Hpos.
  fold (decimal_value (d :: ds)) in Hval, Hpos.
  inversion Hds as [|? ? Hd _]; subst.
  destruct (digit_rune_ascii d Hd) as [_ Hcode].
  assert (H48 : 48 <= d).
  { unfold is_digit_rune, Rune.zero in Hd.
    apply andb_true_iff in Hd as [H1 _]. apply Z.leb_le in H1. exact H1. }
  change (string_of_runes (d :: ds))
    with (String (ascii_of_N (Z.to_N d)) (string_of_runes ds)) in *.
  unfold Atoi.
  replace (Ascii.eqb (ascii_of_N (Z.to_N d)) "-") with false.
  2:{ symmetry. apply Ascii.eqb_neq. intros Heq. rewrite Heq in Hcode.
      simpl in Hcode. lia. }
  replace (Ascii.eqb (ascii_of_N (Z.to_N d)) "+") with false.
  2:{ symmetry. apply Ascii.eqb_neq. intros Heq. rewrite Heq in Hcode.
      simpl in Hcode. lia. }
  unfold unsigned_value. rewrite Hval. unfold in_int_range.
  replace (int_min <=? decimal_value (d :: ds)) with true
    by (symmetry; apply Z.leb_le; unfold int_min; lia).
  reflexivity.
Qed.

Lemma parseOne_direction ch k ei p0 rest :
  mutex ei = false -> state ei = stateParams -> within_limits ei ->
  csiParam ei = p0 :: rest ->
  In (ch, k) [(Rune.A, CURSOR_UP); (Rune.B, CURSOR_DOWN);
              (Rune.C, CURSOR_LEFT); (Rune.D, CURSOR_RIGHT)] ->
  parseOne ch ei =
  match Atoi p0 with
  | Some n =>
      Returned (true, None)
        {| state := stateNone; curch := ch; csiParam := [];
           curFgColor := curFgColor ei; curBgColor := curBgColor ei;
           mode := mode ei; mutex := false;
           instr := {| kind := k; param1 := n; param2 := param2 (instr ei) |} |}
  | None => Returned (false, Some errCSIParseError) (with_curch ch ei)
  end.
Proof.
  intros Hm Hst Hlim Hps Hch.
  rewrite (parseOne_in_params _ _ Hm Hst Hlim). simpl in Hch.
  destruct Hch as [[= <- <-]|[[= <- <-]|[[= <- <-]|[[= <- <-]|[]]]]];
    unfold parseOne_params, index; simpl; rewrite Hps; simpl;
    destruct (Atoi p0); destruct ei; simpl in *; subst; reflexivity.
Qed.

(** X10: ESC [, a run of at most 255 decimal digits and one of 'A', 'B',
    'C', 'D'.  When the number the digits write is at most 2^63 - 1, every
    call returns [true] and the instruction latched carries that number;
    when it is larger, the terminator is answered by [errCSIParseError]
    and no instruction is latched. *)
Theorem cursor_count_is_decimal_value
    (ei : escapeInterpreter) (d : rune) (ds : list rune) (ch k : Z) :
  mutex ei = false -> state ei = stateNone -> csiParam ei = [] ->
  Forall (fun c => is_digit_rune c = true) (d :: ds) ->
  (List.length (d :: ds) <= 255)%nat ->
  In (ch, k) [(Rune.A, CURSOR_UP); (Rune.B, CURSOR_DOWN);
              (Rune.C, CURSOR_LEFT); (Rune.D, CURSOR_RIGHT)] ->
  (decimal_value (d :: ds) <= int_max ->
   feed (Rune.ESC :: Rune.lbracket :: (d :: ds) ++ [ch]) ei =
     Returned (map (fun _ => (true, None))
                 (Rune.ESC :: Rune.lbracket :: (d :: ds) ++ [ch]))
       {| state := stateNone; curch := ch; csiParam := [];
          curFgColor := curFgColor ei; curBgColor := curBgColor ei;
          mode := mode ei; mutex := false;
          instr := {| kind := k; param1 := decimal_value (d :: ds);
                      param2 := param2 (instr ei) |} |})
  /\ (int_max < decimal_value (d :: ds) ->
      exists ei',
        feed (Rune.ESC :: Rune.lbracket :: (d :: ds) ++ [ch]) ei =
          Returned (map (fun _ => (true, None))
                      (Rune.ESC :: Rune.lbracket :: d :: ds)
                    ++ [(false, Some errCSIParseError)]) ei'
        /\ instr ei' = instr ei /\ state ei' = stateParams).
Proof.
  intros Hm Hst Hps Hds Hlen Hch.
  assert (Hpar : Forall (fun c => is_param_rune c = true) (d :: ds)).
  { eapply Forall_impl; [|exact Hds]. intros c Hc. unfold is_param_rune.
    rewrite Hc. reflexivity. }
  pose proof (feed_first_parameter d ds ei Hm Hst Hps Hpar ltac:(simpl in *; lia))
    as Hfed.
  change (Rune.ESC :: Rune.lbracket :: (d :: ds) ++ [ch])
    with ((Rune.ESC :: Rune.lbracket :: d :: ds) ++ [ch]).
  rewrite (feed_app _ [ch] _ _ _ Hfed). cbn [feed].
  rewrite (parseOne_direction ch k
             (with_curch (last ds d)
                (with_csiParam [string_of_runes (d :: ds)]
                   (with_state stateParams ei)))
             (string_of_runes (d :: ds)) [] Hm eq_refl);
    [|split; [simpl; lia|];
      change (String.length (string_of_runes (d :: ds)) <= 255)%nat;
      rewrite string_of_runes_length; exact Hlen
     |reflexivity | exact Hch].
  rewrite (Atoi_digits d ds Hds).
  split; intros Hval.
  - replace (decimal_value (d :: ds) <=? int_max) with true
      by (symmetry; apply Z.leb_le; exact Hval).
    rewrite map_app. simpl. destruct ei; simpl in *; subst; reflexivity.
  - replace (decimal_value (d :: ds) <=? int_max) with false
      by (symmetry; apply Z.leb_gt; exact Hval).
    eexists. split; [reflexivity|]. split; reflexivity.
Qed.

(** ** Erase, clear and the bare 'm' *)

(** X11: 'K' is a terminator right after ESC [ only, where it latches
    [ERASE_TO_END_OF_LINE]; after a parameter it is answered by
    [errCSIParseError].  'J' is a terminator after a parameter only, where
    it latches [CLEAR_SCREEN] whatever the parameters are; right after
    ESC [ it is answered by [errCSIParseError].  Neither assigns the
    numbers of the instruction, which stay those of the one before. *)
Theorem erase_and_clear_terminators (ei : escapeInterpreter) :
  mutex ei = false -> within_limits ei ->
  (state ei = stateCSI ->
   parseOne Rune.K ei =
     Returned (true, None)
       {| state := stateNone; curch := Rune.K; csiParam := [];
          curFgColor := curFgColor ei; curBgColor := curBgColor ei;
          mode := mode ei; mutex := false;
          instr := {| kind := ERASE_TO_END_OF_LINE; param1 := param1 (instr ei);
                      param2 := param2 (instr ei) |} |}
   /\ parseOne Rune.J ei =
        Returned (false, Some errCSIParseError) (with_curch Rune.J ei))
  /\ (state ei = stateParams ->
      parseOne Rune.J ei =
        Returned (true, None)
          {| state := stateNone; curch := Rune.J; csiParam := [];
             curFgColor := curFgColor ei; curBgColor := curBgColor ei;
             mode := mode ei; mutex := false;
             instr := {| kind := CLEAR_SCREEN; param1 := param1 (instr ei);
                         param2 := param2 (instr ei) |} |}
      /\ parseOne Rune.K ei =
           Returned (false, Some errCSIParseError) (with_curch Rune.K ei)).
Proof.
  intros Hm Hlim. split; intros Hst; split;
    rewrite (parseOne_switch_of _ _ Hm Hlim);
    unfold parseOne_switch, parseOne_params; simpl; rewrite Hst; simpl;
    destruct ei; simpl in *; subst; reflexivity.
Qed.

(** X12: in mode [OutputNormal], 'm' right after ESC [ stands for the
    parameter 0: whatever the colours were, both are [ColorDefault] after
    the call, which returns [true] and leaves the sequence. *)
Theorem bare_m_resets_colours (ei : escapeInterpreter) :
  mutex ei = false -> state ei = stateCSI -> csiParam ei = [] ->
  mode ei = OutputNormal ->
  parseOne Rune.m ei =
    Returned (true, None)
      {| state := stateNone; curch := Rune.m; csiParam := [];
         curFgColor := ColorDefault; curBgColor := ColorDefault;
         mode := OutputNormal; mutex := false; instr := instr ei |}.
Proof.
  intros Hm Hst Hps Hmd.
  assert (Hlim : within_limits ei) by (split; rewrite Hps; simpl; lia).
  rewrite (parseOne_switch_of _ _ Hm Hlim).
  unfold parseOne_switch. simpl state. rewrite Hst.
  change (is_digit_rune Rune.m) with false.
  change (Rune.m =? Rune.m) with true. cbv iota.
  rewrite parseOne_params_m_OutputNormal by exact Hmd.
  unfold outputNormal. simpl csiParam. rewrite Hps. simpl.
  destruct ei; simpl in *; subst; reflexivity.
Qed.

(** ** The Basic resolver as a whole *)

Lemma outputNormal_loop_numeric params : forall ns ei,
  Forall2 (fun s n => Atoi s = Some n) params ns ->
  outputNormal_loop params ei
  = (None, fold_left (fun e n => outputNormal_case n e) ns ei).
Proof.
  induction params as [|p params IH]; intros ns ei Hnum;
    inversion Hnum as [|? n ? ns' Hp Hrest]; subst; simpl; [reflexivity|].
  rewrite Hp. apply IH, Hrest.
Qed.

(** X13: in mode [OutputNormal], an 'm' terminator all of whose parameters
    [Atoi] accepts always succeeds: the call returns [true] and no error,
    leaves the sequence with the parameters dropped, assigns the colours
    the codes stand for, in order, and leaves the instruction alone. *)
Theorem sgr_numeric_parameters_succeed
    (ei : escapeInterpreter) (ns : list Z) :
  mutex ei = false -> state ei = stateParams -> mode ei = OutputNormal ->
  within_limits ei ->
  Forall2 (fun s n => Atoi s = Some n) (csiParam ei) ns ->
  exists ei',
    parseOne Rune.m ei = Returned (true, None) ei'
    /\ state ei' = stateNone /\ csiParam ei' = []
    /\ instr ei' = instr ei /\ mode ei' = mode ei /\ mutex ei' = false
    /\ curFgColor ei' = curFgColor (fold_left (fun e n => outputNormal_case n e) ns ei)
    /\ curBgColor ei' = curBgColor (fold_left (fun e n => outputNormal_case n e) ns ei).
Proof.
  intros Hm Hst Hmd Hlim Hnum.
  rewrite (parseOne_in_params _ _ Hm Hst Hlim).
  rewrite parseOne_params_m_OutputNormal by exact Hmd.
  unfold outputNormal. simpl csiParam.
  pose proof (outputNormal_loop_numeric _ ns (with_curch Rune.m (with_mutex true ei)) Hnum)
    as Hloop.
  pose proof (outputNormal_loop_numeric _ ns ei Hnum) as Hloop0.
  pose proof (outputNormal_loop_frame (csiParam ei)
                (with_curch Rune.m (with_mutex true ei))) as Hf.
  pose proof (outputNormal_loop_frame (csiParam ei) ei) as Hf0.
  assert (Hcol : forall l e b c,
            curFgColor (fold_left (fun e n => outputNormal_case n e) l
                          (with_curch c (with_mutex b e)))
            = curFgColor (fold_left (fun e n => outputNormal_case n e) l e)
            /\ curBgColor (fold_left (fun e n => outputNormal_case n e) l
                             (with_curch c (with_mutex b e)))
               = curBgColor (fold_left (fun e n => outputNormal_case n e) l e)).
  { induction l as [|n l IHl]; intros e b c; [split; reflexivity|].
    cbn [fold_left].
    replace (outputNormal_case n (with_curch c (with_mutex b e)))
      with (with_curch c (with_mutex b (outputNormal_case n e))); [apply IHl|].
    unfold outputNormal_case.
    repeat match goal with
           | |- context [if ?t then _ else _] => destruct t
           end; reflexivity. }
  rewrite Hloop in Hf |- *. simpl in Hf |- *.
  destruct (same_but_colours_fields _ _ Hf) as (_ & _ & _ & Hmd' & _ & Hi').
  destruct (Hcol ns ei true Rune.m) as [Hfg Hbg].
  eexists. split; [reflexivity|]. simpl.
  repeat split; try assumption.
Qed.

Lemma outputNormal_case_shape (n : Z) :
  exists (kf kb : option Z) (mf : Z),
    (forall ei,
       outputNormal_case n ei
       = with_bg (match kb with Some c => c | None => curBgColor ei end)
           (with_fg (Z.lor (match kf with Some c => c | None => curFgColor ei end) mf)
              ei))
    /\ (9 <= attr_bits -> match kb with Some c => 0 <= c <= 8 | None => True end).
Proof.
  unfold outputNormal_case.
  destruct ((30 <=? n) && (n <=? 37)).
  { exists (Some (to_Attribute (int_add (int_sub n 30) 1))), None, 0.
    split; [intros []; simpl; rewrite Z.lor_0_r; reflexivity | trivial]. }
  destruct (n =? 39).
  { exists (Some ColorDefault), None, 0.
    split; [intros []; reflexivity | trivial]. }
  destruct ((40 <=? n) && (n <=? 47)) eqn:Ebg.
  { exists None, (Some (to_Attribute (int_add (int_sub n 40) 1))), 0.
    split; [intros []; simpl; rewrite Z.lor_0_r; reflexivity|].
    intros Hb. apply andb_true_iff in Ebg as [H1 H2]. apply Z.leb_le in H1, H2.
    rewrite (slot_of_code n 40) by lia. lia. }
  destruct (n =? 49).
  { exists None, (Some ColorDefault), 0.
    split; [intros []; simpl; rewrite Z.lor_0_r; reflexivity|].
    intros _. unfold ColorDefault. lia. }
  destruct (n =? 1).
  { exists None, None, AttrBold. split; [intros []; reflexivity | trivial]. }
  destruct (n =? 4).
  { exists None, None, AttrUnderline. split; [intros []; reflexivity | trivial]. }
  destruct (n =? 7).
  { exists None, None, AttrReverse. split; [intros []; reflexivity | trivial]. }
  destruct (n =? 0).
  { exists (Some ColorDefault), (Some ColorDefault), 0.
    split; [intros []; reflexivity|]. intros _. unfold ColorDefault. lia. }
  exists None, None, 0.
  split; [intros []; simpl; rewrite Z.lor_0_r; reflexivity | trivial].
Qed.

(** What a run of [outputNormal] does to the colours depends on the
    parameters only: the foreground becomes a value the parameters fix, or
    stays, with flags the parameters fix added; the background becomes a
    value the parameters fix, or stays. *)
Lemma outputNormal_loop_shape (params : list string) :
  exists (kf kb : option Z) (mf : Z) (e : option error),
    (forall ei,
       outputNormal_loop params ei
       = (e, with_bg (match kb with Some c => c | None => curBgColor ei end)
               (with_fg (Z.lor (match kf with Some c => c | None => curFgColor ei end) mf)
                  ei)))
    /\ (9 <= attr_bits -> match kb with Some c => 0 <= c <= 8 | None => True end).
Proof.
  induction params as [|p rest IH].
  - exists None, None, 0, None.
    split; [intros []; simpl; rewrite Z.lor_0_r; reflexivity | trivial].
  - cbn [outputNormal_loop]. destruct (Atoi p) as [n|].
    + destruct IH as (kf' & kb' & mf' & e' & Hrest & Hrange').
      destruct (outputNormal_case_shape n) as (kf1 & kb1 & mf1 & Hcase & Hrange1).
      exists (match kf' with Some c => Some c | None => kf1 end),
             (match kb' with Some c => Some c | None => kb1 end),
             (match kf' with Some _ => mf' | None => Z.lor mf1 mf' end), e'.
      split.
      * intros ei. rewrite Hrest, Hcase.
        destruct ei, kf', kb', kf1, kb1; simpl; rewrite ?Z.lor_assoc; reflexivity.
      * intros Hb. specialize (Hrange' Hb). specialize (Hrange1 Hb).
        destruct kb'; [exact Hrange' | exact Hrange1].
    + exists None, None, 0, (Some errCSIParseError).
      split; [intros []; simpl; rewrite Z.lor_0_r; reflexivity | trivial].
Qed.

(** X14: resolving the same parameters a second time changes nothing:
    [outputNormal] run on the interpreter it has left returns the same
    result and leaves the same interpreter. *)
Theorem outputNormal_idempotent (ei : escapeInterpreter) :
  outputNormal (snd (outputNormal ei)) = outputNormal ei.
Proof.
  unfold outputNormal.
  destruct (same_but_colours_fields _ _ (outputNormal_loop_frame (csiParam ei) ei))
    as (_ & _ & Hps & _).
  rewrite Hps.
  destruct (outputNormal_loop_shape (csiParam ei))
    as (kf & kb & mf & e & Hshape & _).
  rewrite (Hshape ei). cbn [snd]. rewrite Hshape.
  destruct ei, kf, kb; simpl;
    rewrite <- ?Z.lor_assoc, ?Z.lor_diag; reflexivity.
Qed.

(** X15: [outputNormal] never puts a modifier on the background: after
    the call the background is what it was, or a slot from 0 to 8. *)
Theorem outputNormal_background_range (ei : escapeInterpreter) :
  9 <= attr_bits ->
  curBgColor (snd (outputNormal ei)) = curBgColor ei
  \/ 0 <= curBgColor (snd (outputNormal ei)) <= 8.
Proof.
  intros Hb. unfold outputNormal.
  destruct (outputNormal_loop_shape (csiParam ei))
    as (kf & kb & mf & e & Hshape & Hrange).
  rewrite (Hshape ei). simpl. specialize (Hrange Hb).
  destruct kb; [right; exact Hrange | left; reflexivity].
Qed.

(** X16: a parameter 0 at the end resets both colours whatever comes
    before it: when all parameters are numeric and the last one is 0,
    [outputNormal] returns no error and leaves both colours
    [ColorDefault]. *)
Theorem outputNormal_trailing_zero_resets
    (ei : escapeInterpreter) (pre : list string) (z : string) :
  csiParam ei = pre ++ [z] ->
  Forall (fun s => Atoi s <> None) pre -> Atoi z = Some 0 ->
  outputNormal ei = (None, with_bg ColorDefault (with_fg ColorDefault ei)).
Proof.
  intros Hps Hpre Hz. unfold outputNormal. rewrite Hps.
  destruct (outputNormal_loop_numeric_prefix pre [z] ei Hpre) as (ei1 & Hf & ->).
  simpl. rewrite Hz. simpl. unfold same_but_colours in Hf.
  rewrite Hf. destruct ei; reflexivity.
Qed.

End Properties.

(** * Runs of the interpreter

    The runs below use [attr16]; none but the colour values depends on the
    choice. *)

(** C1: in mode [OutputNormal], the characters ESC [ 1 ; 2 x are fed; the
    last one is answered by [errCSIParseError], and [runes] then returns
    ESC [ 1 2 x: the separator that was fed is not among them. *)
Theorem runes_drops_separator :
  @feed attr16 (Rune.ESC :: runes_of_string "[1;2x") (newEscapeInterpreter OutputNormal)
  = Returned
      [(true, None); (true, None); (true, None); (true, None); (true, None);
       (false, Some errCSIParseError)]
      (with_curch 120 (reading OutputNormal ["1"; "2"]%string))
  /\ runes (with_curch 120 (reading OutputNormal ["1"; "2"]%string))
     = Returned (Rune.ESC :: runes_of_string "[12x")
         (with_curch 120 (reading OutputNormal ["1"; "2"]%string))
  /\ Rune.ESC :: runes_of_string "[12x" <> Rune.ESC :: runes_of_string "[1;2x".
Proof.
  split; [reflexivity|]. split; [reflexivity|]. discriminate.
Qed.

(** C2: in mode [Output256], the characters ESC [ 0 m are fed; the call of
    [parseOne] for 'm' does not return: it holds the mutex and [output256]
    waits for it. *)
Theorem parseOne_m_blocks_in_Output256 :
  @feed attr16 (Rune.ESC :: runes_of_string "[0") (newEscapeInterpreter Output256)
  = Returned [(true, None); (true, None); (true, None)]
      (with_curch 48 (reading Output256 ["0"%string]))
  /\ @parseOne attr16 Rune.m (with_curch 48 (reading Output256 ["0"%string]))
     = Blocked (with_mutex true (with_curch Rune.m (reading Output256 ["0"%string])))
  /\ @output256 attr16
       (with_mutex true (with_curch Rune.m (reading Output256 ["0"%string])))
     = Blocked (with_mutex true (with_curch Rune.m (reading Output256 ["0"%string]))).
Proof. repeat split. Qed.

(** C3, as stated, fails: after ESC [ 1, twenty separators are fed and each
    is accepted, the twentieth too, which leaves 21 parameters stored; and
    after ESC [, 256 digits are fed and each is accepted, which leaves a
    parameter of 256 bytes stored. *)
Lemma twenty_first_parameter_stored :
  @feed attr16 ([Rune.ESC; Rune.lbracket; 49] ++ repeat Rune.semicolon 20)
    (newEscapeInterpreter OutputNormal)
  = Returned (repeat (true, None) 23)
      (with_curch Rune.semicolon
         (reading OutputNormal ("1"%string :: repeat EmptyString 20)))
  /\ List.length ("1"%string :: repeat EmptyString 20) = 21%nat
  /\ @feed attr16 ([Rune.ESC; Rune.lbracket] ++ repeat 55 256)
       (newEscapeInterpreter OutputNormal)
     = Returned (repeat (true, None) 258)
         (with_curch 55
            (reading OutputNormal [string_of_list_ascii (repeat "7"%char 256)]))
  /\ String.length (string_of_list_ascii (repeat "7"%char 256)) = 256%nat.
Proof. repeat split; vm_compute; reflexivity. Qed.

(** C4, as stated, fails: ESC [ ? 2 5 ; 1 leaves the two parameters ?25
    and 1, and the terminator 'h' is accepted all the same. *)
Lemma h_accepts_trailing_parameter :
  @feed attr16 (Rune.ESC :: runes_of_string "[?25;1") (newEscapeInterpreter OutputNormal)
  = Returned (repeat (true, None) 7)
      (with_curch 49 (reading OutputNormal ["?25"; "1"]%string))
  /\ @parseOne attr16 Rune.h (with_curch 49 (reading OutputNormal ["?25"; "1"]%string))
     = Returned (true, None) (with_curch Rune.h (newEscapeInterpreter OutputNormal))
  /\ ["?25"; "1"]%string <> ["?25"%string].
Proof. split; [reflexivity|]. split; [reflexivity|]. discriminate. Qed.

(** C5: in mode [Output256], the characters ESC [ 3 8 ; 5 ; 1 9 6 m are
    fed.  The call of [parseOne] for 'm' does not return, because
    [output256] asks for the mutex that [parseOne] holds, and the
    foreground is still [ColorDefault]; the body of [output256], which is
    never reached, is what would make it 197. *)
Theorem extended_colour_sequence_blocks :
  @feed attr16 (Rune.ESC :: runes_of_string "[38;5;196") (newEscapeInterpreter Output256)
  = Returned (repeat (true, None) 10)
      (with_curch 54 (reading Output256 ["38"; "5"; "196"]%string))
  /\ @parseOne attr16 Rune.m (with_curch 54 (reading Output256 ["38"; "5"; "196"]%string))
     = Blocked
         (with_mutex true
            (with_curch Rune.m (reading Output256 ["38"; "5"; "196"]%string)))
  /\ curFgColor
       (with_mutex true (with_curch Rune.m (reading Output256 ["38"; "5"; "196"]%string)))
     = ColorDefault
  /\ @output256_body attr16
       (with_mutex true (with_curch Rune.m (reading Output256 ["38"; "5"; "196"]%string)))
     = Returned None
         (with_fg 197
            (with_mutex true
               (with_curch Rune.m (reading Output256 ["38"; "5"; "196"]%string)))).
Proof. repeat split. Qed.

(** C6, as stated, fails, in the two places where [outputNormal] leaves
    the words of the spec.  The parameter 9223372036854775808 is numeric
    and stands for no code: the spec ignores it, [outputNormal] answers
    [errCSIParseError].  And after the parameters 1 and 31 the spec has the
    foreground slot 2 with Bold still set, where [outputNormal] leaves the
    foreground 2, without the flag that the parameter 1 had set. *)
Lemma outputNormal_is_not_spec_basic :
  integer_value "9223372036854775808" = Some 9223372036854775808
  /\ @spec_basic attr16 ["9223372036854775808"%string] (ColorDefault, ColorDefault)
     = (None, (ColorDefault, ColorDefault))
  /\ @outputNormal attr16 (reading OutputNormal ["9223372036854775808"%string])
     = (Some errCSIParseError, reading OutputNormal ["9223372036854775808"%string])
  /\ @spec_basic attr16 ["1"; "31"]%string (ColorDefault, ColorDefault)
     = (None, (Z.lor 2 (@AttrBold attr16), ColorDefault))
  /\ @outputNormal attr16 (reading OutputNormal ["1"; "31"]%string)
     = (None, with_fg 2 (reading OutputNormal ["1"; "31"]%string))
  /\ Z.land 2 (@AttrBold attr16) <> @AttrBold attr16.
Proof.
  split; [reflexivity|]. split; [reflexivity|]. split; [reflexivity|].
  split; [reflexivity|]. split; [reflexivity|]. discriminate.
Qed.

(** * The theorems at concrete interpreters *)

Lemma csiParam_bounds_witness :
  @after_calls attr16
    [CallParseOne Rune.ESC; CallParseOne Rune.lbracket; CallParseOne 49;
     CallParseOne Rune.semicolon; CallInstructionRead]
    (newEscapeInterpreter OutputNormal)
  = Some (with_curch Rune.semicolon (reading OutputNormal ["1"%string; EmptyString]))
  /\ (List.length ["1"%string; EmptyString] <= 21)%nat.
Proof.
  split; [reflexivity|].
  apply (@csiParam_bounds attr16 OutputNormal
           [CallParseOne Rune.ESC; CallParseOne Rune.lbracket; CallParseOne 49;
            CallParseOne Rune.semicolon; CallInstructionRead]
           (with_curch Rune.semicolon (reading OutputNormal ["1"%string; EmptyString]))).
  reflexivity.
Defined.

Lemma parseOne_h_l_first_parameter_witness :
  within_limits (reading OutputNormal ["?25"; "7"]%string)
  /\ @parseOne attr16 Rune.l (reading OutputNormal ["?25"; "7"]%string)
     = Returned (true, None) (with_curch Rune.l (newEscapeInterpreter OutputNormal)).
Proof.
  assert (Hlim : within_limits (reading OutputNormal ["?25"; "7"]%string))
    by (split; simpl; lia).
  split; [exact Hlim|].
  apply (@parseOne_h_l_first_parameter attr16
           (reading OutputNormal ["?25"; "7"]%string) Rune.l
           "?25"%string ["7"%string]
           eq_refl eq_refl Hlim eq_refl (or_intror eq_refl)).
  reflexivity.
Defined.

Lemma output256_resolves_witness :
  9 <= @attr_bits attr16
  /\ @output256 attr16 (reading Output256 ["38"; "5"; "196"; "1"]%string)
     = Returned None
         (with_fg (Z.lor 197 512) (reading Output256 ["38"; "5"; "196"; "1"]%string)).
Proof.
  assert (Hb : 9 <= @attr_bits attr16) by (simpl; lia).
  split; [exact Hb|].
  destruct (@output256_resolves attr16
              (reading Output256 ["38"; "5"; "196"; "1"]%string) eq_refl Hb)
    as (_ & Hgen & _ & _).
  destruct (Hgen "38"%string "5"%string "196"%string ["1"%string] eq_refl)
    as (_ & _ & Hmarker).
  destruct (Hmarker eq_refl) as (_ & Hcolour).
  destruct (Hcolour 38 196 eq_refl eq_refl) as (Hfg & _).
  exact (Hfg eq_refl [1]
           (Forall2_cons "1"%string 1 (eq_refl : Atoi "1" = Some 1) (Forall2_nil _))).
Defined.

Lemma outputNormal_colour_rules_witness :
  9 <= @attr_bits attr16
  /\ @colour_run attr16 ["1"; "31"; "4"; "x"]%string (0, 0)
       (Some errCSIParseError) (Z.lor 2 1024, 0).
Proof.
  assert (Hb : 9 <= @attr_bits attr16) by (simpl; lia).
  split; [exact Hb|].
  exact (proj1 (@outputNormal_colour_rules attr16
                  (reading OutputNormal ["1"; "31"; "4"; "x"]%string) Hb)).
Defined.

Lemma parseOne_cursor_direction_witness :
  within_limits (reading OutputNormal ["3"%string])
  /\ @parseOne attr16 Rune.C (reading OutputNormal ["3"%string])
     = Returned (true, None)
         {| state := stateNone; curch := Rune.C; csiParam := [];
            curFgColor := ColorDefault; curBgColor := ColorDefault;
            mode := OutputNormal; mutex := false;
            instr := {| kind := CURSOR_LEFT; param1 := 3; param2 := 0 |} |}.
Proof.
  assert (Hlim : within_limits (reading OutputNormal ["3"%string]))
    by (split; simpl; lia).
  split; [exact Hlim|].
  exact (proj1 (@parseOne_cursor_direction attr16
                  (reading OutputNormal ["3"%string]) Rune.C CURSOR_LEFT
                  "3"%string [] OutputNormal
                  eq_refl eq_refl Hlim eq_refl
                  (or_intror (or_intror (or_introl eq_refl))))).
Defined.

Lemma reset_idle_idempotent_witness :
  exists ei',
    reset (with_fg 2 (reading Output256 ["31"%string])) = Returned tt ei'
    /\ state ei' = stateNone
    /\ curFgColor ei' = ColorDefault
    /\ curBgColor ei' = ColorDefault
    /\ csiParam ei' = []
    /\ reset ei' = Returned tt ei'.
Proof.
  exact (reset_idle_idempotent (with_fg 2 (reading Output256 ["31"%string])) eq_refl).
Defined.

Lemma outputNormal_error_not_atomic_witness :
  exists ei',
    @parseOne attr16 Rune.m (reading OutputNormal ["31"; "?"]%string)
    = Returned (false, Some errCSIParseError) ei'
    /\ state ei' = stateParams
    /\ csiParam ei' = ["31"; "?"]%string
    /\ curFgColor ei' = 2.
Proof.
  assert (Hb : 9 <= @attr_bits attr16) by (simpl; lia).
  assert (Hlim : within_limits (reading OutputNormal ["31"; "?"]%string))
    by (split; simpl; lia).
  assert (Hn : 30 <= 31 <= 37) by lia.
  destruct (@outputNormal_error_not_atomic attr16
              (reading OutputNormal ["31"; "?"]%string) [] "31"%string 31
              "?"%string []
              Hb eq_refl eq_refl eq_refl Hlim eq_refl (Forall_nil _)
              eq_refl (or_introl Hn) eq_refl)
    as (ei' & Hret & Hst & Hps & Hfg & _).
  exists ei'. split; [exact Hret|]. split; [exact Hst|]. split; [exact Hps|].
  exact (Hfg Hn).
Defined.

Lemma reset_keeps_instruction_witness :
  exists ei',
    reset (with_param1 2 (with_kind CURSOR_UP (newEscapeInterpreter OutputNormal)))
    = Returned tt ei'
    /\ instr ei' = {| kind := CURSOR_UP; param1 := 2; param2 := 0 |}.
Proof.
  exact (proj1 (@reset_keeps_instruction attr16
                  (with_param1 2 (with_kind CURSOR_UP (newEscapeInterpreter OutputNormal)))
                  eq_refl)).
Defined.

(** * The further properties at concrete interpreters *)

Lemma idle_passes_text_through_witness :
  @feed attr16 [72; 105] (newEscapeInterpreter OutputNormal)
  = Returned [(false, None); (false, None)]
      (with_curch 105 (newEscapeInterpreter OutputNormal)).
Proof.
  apply (@idle_passes_text_through attr16 (newEscapeInterpreter OutputNormal) [72; 105]).
  - reflexivity.
  - reflexivity.
  - split; simpl; lia.
  - repeat constructor; unfold Rune.ESC; lia.
Defined.

Lemma escape_state_is_sticky_witness :
  @feed attr16 [90; 92]
    (with_state stateEscape (with_curch Rune.ESC (newEscapeInterpreter OutputNormal)))
  = Returned [(false, Some errNotCSI); (false, Some errNotCSI)]
      (with_curch 92
         (with_state stateEscape
            (with_curch Rune.ESC (newEscapeInterpreter OutputNormal)))).
Proof.
  apply (@escape_state_is_sticky attr16
           (with_state stateEscape (with_curch Rune.ESC (newEscapeInterpreter OutputNormal)))
           90 [92]).
  - reflexivity.
  - reflexivity.
  - split; simpl; lia.
  - repeat constructor; unfold Rune.lbracket; lia.
Defined.

Lemma too_long_locks_until_reset_witness :
  @feed attr16 [Rune.ESC; 120] (reading OutputNormal (repeat EmptyString 21))
  = Returned [(false, Some errCSITooLong); (false, Some errCSITooLong)]
      (reading OutputNormal (repeat EmptyString 21)).
Proof.
  apply (@too_long_locks_until_reset attr16
           (reading OutputNormal (repeat EmptyString 21)) [Rune.ESC; 120]).
  - reflexivity.
  - intros [Hn _]. simpl in Hn. lia.
Defined.

Lemma parseOne_follows_transitions_witness :
  In (stateParams, stateNone) transitions.
Proof.
  exact (@parseOne_follows_transitions attr16 Rune.J
           (reading OutputNormal ["2"%string]) (true, None)
           (with_kind CLEAR_SCREEN (with_curch Rune.J (newEscapeInterpreter OutputNormal)))
           eq_refl).
Defined.

Lemma colours_change_only_at_m_witness :
  curFgColor
    (with_fg 2 (with_kind CLEAR_SCREEN (with_curch Rune.J (newEscapeInterpreter OutputNormal))))
  = 2
  /\ curBgColor
       (with_fg 2 (with_kind CLEAR_SCREEN (with_curch Rune.J (newEscapeInterpreter OutputNormal))))
     = 0.
Proof.
  assert (Hch : Rune.J <> Rune.m) by (unfold Rune.J, Rune.m; lia).
  exact (@colours_change_only_at_m attr16 Rune.J
           (with_fg 2 (reading OutputNormal ["2"%string])) (true, None)
           (with_fg 2
              (with_kind CLEAR_SCREEN (with_curch Rune.J (newEscapeInterpreter OutputNormal))))
           Hch eq_refl).
Defined.

Lemma error_keeps_the_sequence_witness :
  false = false
  /\ state (with_curch 90 (with_state stateEscape (newEscapeInterpreter Output256)))
     = stateEscape
  /\ csiParam (with_curch 90 (with_state stateEscape (newEscapeInterpreter Output256)))
     = []
  /\ instr (with_curch 90 (with_state stateEscape (newEscapeInterpreter Output256)))
     = instr (newEscapeInterpreter Output256)
  /\ mode (with_curch 90 (with_state stateEscape (newEscapeInterpreter Output256)))
     = Output256.
Proof.
  exact (@error_keeps_the_sequence attr16 Output256 [CallParseOne Rune.ESC]
           (with_state stateEscape (with_curch Rune.ESC (newEscapeInterpreter Output256)))
           90 false errNotCSI
           (with_curch 90 (with_state stateEscape (newEscapeInterpreter Output256)))
           eq_refl eq_refl).
Defined.

Lemma calls_never_panic_witness :
  exists r ei',
    @parseOne attr16 Rune.A (with_curch 49 (reading OutputNormal ["1"%string]))
    = Returned r ei'.
Proof.
  exact (proj1 (proj2
           (@calls_never_panic attr16 OutputNormal
              [CallParseOne Rune.ESC; CallParseOne Rune.lbracket; CallParseOne 49]
              (with_curch 49 (reading OutputNormal ["1"%string])) Rune.A eq_refl))
           eq_refl).
Defined.

Lemma mode_is_fixed_and_mutex_released_witness :
  mode (with_curch 49 (reading Output256 ["1"%string])) = Output256
  /\ mutex (with_curch 49 (reading Output256 ["1"%string])) = false.
Proof.
  exact (@mode_is_fixed_and_mutex_released attr16 Output256
           [CallParseOne Rune.ESC; CallParseOne Rune.lbracket; CallReset;
            CallParseOne Rune.ESC; CallParseOne Rune.lbracket; CallParseOne 49]
           (with_curch 49 (reading Output256 ["1"%string])) eq_refl).
Defined.

Lemma runes_round_trip_without_separator_witness :
  exists ei',
    @feed attr16 (Rune.ESC :: Rune.lbracket :: [49; Rune.question; 50] ++ [120])
      (newEscapeInterpreter OutputNormal)
    = Returned
        (map (fun _ => (true, None)) (Rune.ESC :: Rune.lbracket :: [49; Rune.question; 50])
           ++ [(false, Some errCSIParseError)]) ei'
    /\ runes ei'
       = Returned (Rune.ESC :: Rune.lbracket :: [49; Rune.question; 50] ++ [120]) ei'.
Proof.
  apply (@runes_round_trip_without_separator attr16
           (newEscapeInterpreter OutputNormal) [49; Rune.question; 50] 120).
  - reflexivity.
  - reflexivity.
  - reflexivity.
  - repeat constructor.
  - simpl; lia.
  - split; [reflexivity|]. simpl. intros Hin.
    repeat (destruct Hin as [Hin|Hin]; [discriminate Hin|]). exact Hin.
Defined.

Lemma cursor_count_is_decimal_value_witness :
  @feed attr16 (Rune.ESC :: Rune.lbracket :: [49; 50] ++ [Rune.B])
    (newEscapeInterpreter OutputNormal)
  = Returned [(true, None); (true, None); (true, None); (true, None); (true, None)]
      {| state := stateNone; curch := Rune.B; csiParam := [];
         curFgColor := ColorDefault; curBgColor := ColorDefault;
         mode := OutputNormal; mutex := false;
         instr := {| kind := CURSOR_DOWN; param1 := 12; param2 := 0 |} |}.
Proof.
  assert (Hval : decimal_value [49; 50] <= int_max)
    by (unfold decimal_value, int_max, Rune.zero; simpl; lia).
  assert (Hlen : (List.length [49; 50] <= 255)%nat) by (simpl; lia).
  assert (Hds : Forall (fun c => is_digit_rune c = true) [49; 50])
    by (repeat constructor).
  exact (proj1 (@cursor_count_is_decimal_value attr16
                  (newEscapeInterpreter OutputNormal) 49 [50] Rune.B CURSOR_DOWN
                  eq_refl eq_refl eq_refl Hds Hlen
                  (or_intror (or_introl eq_refl))) Hval).
Defined.

Lemma erase_and_clear_terminators_witness :
  @parseOne attr16 Rune.K (with_state stateCSI (newEscapeInterpreter OutputNormal))
  = Returned (true, None)
      (with_kind ERASE_TO_END_OF_LINE (with_curch Rune.K (newEscapeInterpreter OutputNormal)))
  /\ @parseOne attr16 Rune.J (with_state stateCSI (newEscapeInterpreter OutputNormal))
     = Returned (false, Some errCSIParseError)
         (with_curch Rune.J (with_state stateCSI (newEscapeInterpreter OutputNormal))).
Proof.
  assert (Hlim : within_limits (with_state stateCSI (newEscapeInterpreter OutputNormal)))
    by (split; simpl; lia).
  exact (proj1 (@erase_and_clear_terminators attr16
                  (with_state stateCSI (newEscapeInterpreter OutputNormal))
                  eq_refl Hlim) eq_refl).
Defined.

Lemma bare_m_resets_colours_witness :
  @parseOne attr16 Rune.m
    (with_bg 5 (with_fg 514 (with_state stateCSI (newEscapeInterpreter OutputNormal))))
  = Returned (true, None) (with_curch Rune.m (newEscapeInterpreter OutputNormal)).
Proof.
  exact (@bare_m_resets_colours attr16
           (with_bg 5 (with_fg 514 (with_state stateCSI (newEscapeInterpreter OutputNormal))))
           eq_refl eq_refl eq_refl eq_refl).
Defined.

Lemma sgr_numeric_parameters_succeed_witness :
  exists ei',
    @parseOne attr16 Rune.m (reading OutputNormal ["31"; "44"; "1"]%string)
    = Returned (true, None) ei'
    /\ state ei' = stateNone /\ csiParam ei' = []
    /\ instr ei' = instr (reading OutputNormal ["31"; "44"; "1"]%string)
    /\ mode ei' = OutputNormal /\ mutex ei' = false
    /\ curFgColor ei' = Z.lor 2 512
    /\ curBgColor ei' = 5.
Proof.
  assert (Hlim : within_limits (reading OutputNormal ["31"; "44"; "1"]%string))
    by (split; simpl; lia).
  exact (@sgr_numeric_parameters_succeed attr16
           (reading OutputNormal ["31"; "44"; "1"]%string) [31; 44; 1]
           eq_refl eq_refl eq_refl Hlim
           (Forall2_cons "31"%string 31 (eq_refl : Atoi "31" = Some 31)
              (Forall2_cons "44"%string 44 (eq_refl : Atoi "44" = Some 44)
                 (Forall2_cons "1"%string 1 (eq_refl : Atoi "1" = Some 1)
                    (Forall2_nil _))))).
Defined.

Lemma outputNormal_background_range_witness :
  curBgColor (snd (@outputNormal attr16 (reading OutputNormal ["44"; "1"]%string)))
  = curBgColor (reading OutputNormal ["44"; "1"]%string)
  \/ 0 <= curBgColor (snd (@outputNormal attr16 (reading OutputNormal ["44"; "1"]%string)))
     <= 8.
Proof.
  assert (Hb : 9 <= @attr_bits attr16) by (simpl; lia).
  exact (@outputNormal_background_range attr16
           (reading OutputNormal ["44"; "1"]%string) Hb).
Defined.

Lemma outputNormal_trailing_zero_resets_witness :
  @outputNormal attr16 (with_fg 514 (reading OutputNormal ["1"; "31"; "0"]%string))
  = (None, reading OutputNormal ["1"; "31"; "0"]%string).
Proof.
  assert (Hpre : Forall (fun s => Atoi s <> None) ["1"; "31"]%string)
    by (repeat constructor; discriminate).
  exact (@outputNormal_trailing_zero_resets attr16
           (with_fg 514 (reading OutputNormal ["1"; "31"; "0"]%string))
           ["1"; "31"]%string "0"%string eq_refl Hpre eq_refl).
Defined.
